(** * Token balance hook of the Argent X extension

    A shallow embedding of [useTokenBalanceForAccount] and of its two local
    helpers [isNetworkError] and [errorToMessage]
    (packages/extension/src/ui/features/accountTokens), together with the
    small part of the JavaScript runtime they rely on. *)

From Stdlib Require Import Bool List Arith ZArith QArith Lia Permutation.
From Stdlib Require Import Ascii String.
Import ListNotations.

Local Open Scope list_scope.
Local Open Scope string_scope.

(** ** The JavaScript runtime, as far as the hook uses it *)

Module JS.

(** Numbers.  A finite number is given by its value, a rational; the
    numbers that [StringToNumber] makes are rounded to binary64.  The sign
    of zero is left out: no comparison of the hook tells the two zeros
    apart. *)
Inductive number : Type :=
| NaN
| Infinity (negative : bool)
| Finite (q : Q).

(** Values.  Strings are sequences of code units below 256; an object is
    the list of the properties that a read finds on it (for an [Error], its
    message included); functions and symbols are left out. *)
#[warnings="-register-all"]
Inductive value : Type :=
| VUndefined
| VNull
| VBool (b : bool)
| VNum (n : number)
| VStr (s : string)
| VObj (props : list (string * value)).

(** What a [throw] carries: a value raised by the program, or the
    [TypeError] the engine raises on a property read on [undefined] or
    [null] and on a call through what is no function. *)
Inductive exn : Type :=
| TypeError
| Raised (v : value).

(** Completion of a synchronous call. *)
Inductive completion (A : Type) : Type :=
| Normal (a : A)
| Throw (e : exn).
Arguments Normal {A} a.
Arguments Throw {A} e.

(** Settled state of a promise whose rejection reasons are in [E]. *)
Inductive settled (A E : Type) : Type :=
| Fulfilled (a : A)
| Rejected (reason : E).
Arguments Fulfilled {A E} a.
Arguments Rejected {A E} reason.

(** [Boolean(s)] for a string. *)
Definition truthyString (s : string) : bool :=
  negb (s =? "").

(** [Boolean(x)] for [x : string | undefined]. *)
Definition truthy (x : option string) : bool :=
  match x with
  | Some s => truthyString s
  | None => false
  end.

(** [`${x}`] for [x : string | undefined]. *)
Definition interpolate (x : option string) : string :=
  match x with
  | Some s => s
  | None => "undefined"
  end.

(** *** Characters *)

Definition inRange (lo hi : nat) (c : ascii) : bool :=
  let n := nat_of_ascii c in (lo <=? n)%nat && (n <=? hi)%nat.

Definition isDecimalDigit (c : ascii) : bool := inRange 48 57 c.

(** The class [[0-9a-f]] under the [i] flag. *)
Definition isHexDigit (c : ascii) : bool :=
  isDecimalDigit c || inRange 97 102 c || inRange 65 70 c.

(** The value of a digit in the given radix, if it is one. *)
Definition digitValue (radix : Z) (c : ascii) : option Z :=
  let n := Z.of_nat (nat_of_ascii c) in
  let v :=
    if isDecimalDigit c then Some (n - 48)%Z
    else if inRange 97 102 c then Some (n - 87)%Z
    else if inRange 65 70 c then Some (n - 55)%Z
    else None in
  match v with
  | Some d => if (d <? radix)%Z then Some d else None
  | None => None
  end.

(** TAB, LF, VT, FF, CR, SP and NBSP. *)
Definition isWhiteSpace (c : ascii) : bool :=
  let n := nat_of_ascii c in
  inRange 9 13 c || (n =? 32)%nat || (n =? 160)%nat.

(** *** [StringToNumber] *)

Fixpoint trimStart (s : string) : string :=
  match s with
  | String c r => if isWhiteSpace c then trimStart r else s
  | EmptyString => EmptyString
  end.

Fixpoint trimEnd (s : string) : string :=
  match s with
  | EmptyString => EmptyString
  | String c r =>
      match trimEnd r with
      | EmptyString => if isWhiteSpace c then EmptyString else String c EmptyString
      | r' => String c r'
      end
  end.

(** Leading decimal digits of [s]: their value on top of [acc], how many
    there are, and what follows them. *)
Fixpoint readDigits (acc : Z) (s : string) : Z * nat * string :=
  match s with
  | String c r =>
      match digitValue 10 c with
      | Some d =>
          let '(v, n, rest) := readDigits (acc * 10 + d) r in (v, S n, rest)
      | None => (acc, O, s)
      end
  | EmptyString => (acc, O, s)
  end.

(** A whole string of digits in the given radix. *)
Fixpoint readRadix (radix acc : Z) (s : string) : option Z :=
  match s with
  | String c r =>
      match digitValue radix c with
      | Some d =>
          match r with
          | EmptyString => Some (acc * radix + d)%Z
          | _ => readRadix radix (acc * radix + d) r
          end
      | None => None
      end
  | EmptyString => None
  end.

(** [SignedInteger] followed by the end of the string. *)
Definition readExponent (s : string) : option Z :=
  match s with
  | String "+" r => readRadix 10 0 r
  | String "-" r => option_map Z.opp (readRadix 10 0 r)
  | _ => readRadix 10 0 s
  end.

(** [x / 2^e] as a fraction of integers. *)
Definition scaleBy (x y e : Z) : Z * Z :=
  if (0 <=? e)%Z then (x, y * 2 ^ e)%Z else (x * 2 ^ (- e), y)%Z.

(** The binary64 number nearest to [q], ties to the even significand: the
    significand has 53 bits, the exponent of its last bit is -1074 at
    least, and what rounds to 2^1024 or more is an infinity. *)
Definition roundToDouble (q : Q) : number :=
  let n := Z.abs (Qnum q) in
  let d := Z.pos (Qden q) in
  if (n =? 0)%Z then Finite 0 else
  let k := (Z.log2 n - Z.log2 d)%Z in
  let '(x, y) := scaleBy n d k in
  let log2 := if (y <=? x)%Z then k else (k - 1)%Z in
  let e := Z.max (log2 - 52) (-1074) in
  let '(x, y) := scaleBy n d e in
  let quotient := (x / y)%Z in
  let twice := (2 * (x mod y))%Z in
  let m :=
    if (twice <? y)%Z then quotient
    else if (y <? twice)%Z then (quotient + 1)%Z
    else if Z.even quotient then quotient else (quotient + 1)%Z in
  let negative := (Qnum q <? 0)%Z in
  if (971 <? e)%Z || ((e =? 971)%Z && (2 ^ 53 <=? m)%Z)
  then Infinity negative
  else
    let signed := if negative then (- m)%Z else m in
    Finite (Qred (if (0 <=? e)%Z
                  then inject_Z (signed * 2 ^ e)
                  else Qmake signed (Z.to_pos (2 ^ (- e))))).

(** [StrUnsignedDecimalLiteral] spanning the whole string. *)
Definition readUnsignedDecimal (s : string) : option number :=
  if s =? "Infinity" then Some (Infinity false) else
  let '(int, n1, afterInt) := readDigits 0 s in
  let '(mant, n2, afterFrac) :=
    match afterInt with
    | String "." r => readDigits int r
    | _ => (int, O, afterInt)
    end in
  if (n1 + n2 =? 0)%nat then None else
  let scaled (e : Z) :=
    roundToDouble (inject_Z mant * Qpower (inject_Z 10) (e - Z.of_nat n2)) in
  match afterFrac with
  | EmptyString => Some (scaled 0%Z)
  | String c r =>
      if (c =? "e")%char || (c =? "E")%char
      then option_map scaled (readExponent r)
      else None
  end.

Definition negate (n : number) : number :=
  match n with
  | NaN => NaN
  | Infinity s => Infinity (negb s)
  | Finite q => Finite (- q)
  end.

(** [StrNumericLiteral] spanning the whole string. *)
Definition readNumericLiteral (s : string) : option number :=
  let nonDecimal (radix : Z) (r : string) :=
    option_map (fun z => roundToDouble (inject_Z z)) (readRadix radix 0 r) in
  match s with
  | String "0" (String "x" r) | String "0" (String "X" r) => nonDecimal 16%Z r
  | String "0" (String "o" r) | String "0" (String "O" r) => nonDecimal 8%Z r
  | String "0" (String "b" r) | String "0" (String "B" r) => nonDecimal 2%Z r
  | String "+" r => readUnsignedDecimal r
  | String "-" r => option_map negate (readUnsignedDecimal r)
  | _ => readUnsignedDecimal s
  end.

Definition StringToNumber (s : string) : number :=
  match trimEnd (trimStart s) with
  | EmptyString => Finite 0
  | t =>
      match readNumericLiteral t with
      | Some n => n
      | None => NaN
      end
  end.

(** [Number(v)].  An object of the model has data for properties and the
    conversions of [Object.prototype], which make it the text
    ["[object Object]"], no number. *)
Definition Number (v : value) : number :=
  match v with
  | VUndefined => NaN
  | VNull => Finite 0
  | VBool b => if b then Finite 1 else Finite 0
  | VNum n => n
  | VStr s => StringToNumber s
  | VObj _ => NaN
  end.

(** SameValueZero on numbers, the comparison of [Array.prototype.includes]. *)
Definition sameValueZero (x y : number) : bool :=
  match x, y with
  | NaN, NaN => true
  | Infinity a, Infinity b => Bool.eqb a b
  | Finite p, Finite q => Qeq_bool p q
  | _, _ => false
  end.

Definition includes (xs : list number) (x : number) : bool :=
  existsb (fun y => sameValueZero y x) xs.

End JS.

Import JS.

(** ** lodash *)

Module Lodash.

Fixpoint lookup (key : string) (props : list (string * value)) : value :=
  match props with
  | [] => VUndefined
  | (k, v) :: rest => if k =? key then v else lookup key rest
  end.

(** [get(object, path)] for a single-name path and no default: [undefined]
    on [null], [undefined] and on the primitives, which have neither an
    [errorCode] nor a [message] property. *)
Definition get (object : value) (path : string) : value :=
  match object with
  | VObj props => lookup path props
  | _ => VUndefined
  end.

End Lodash.

(** ** The regular expression [/(0x[0-9a-f]+)/gi] *)

Module AddressRegExp.

(** The longest run of hexadecimal digits at the start of [s]. *)
Fixpoint hexRun (s : string) : string :=
  match s with
  | String c r => if isHexDigit c then String c (hexRun r) else EmptyString
  | EmptyString => EmptyString
  end.

(** The match that starts at the first character of [s], if there is one:
    [0], then [x] or [X], then one hexadecimal digit or more. *)
Definition matchHere (s : string) : option string :=
  match s with
  | String z (String x (String h r)) =>
      if (z =? "0")%char && ((x =? "x")%char || (x =? "X")%char) && isHexDigit h
      then Some (String z (String x (String h (hexRun r))))
      else None
  | _ => None
  end.

(** All matches from left to right; the search resumes after each match,
    [skip] counting the characters of the last match still to pass. *)
Fixpoint matchesFrom (skip : nat) (s : string) : list string :=
  match s with
  | EmptyString => []
  | String _ r =>
      match skip with
      | S k => matchesFrom k r
      | O =>
          match matchHere s with
          | Some m => m :: matchesFrom (String.length m - 1) r
          | None => matchesFrom 0 r
          end
      end
  end.

(** [s.match(/(0x[0-9a-f]+)/gi)]: the array of all matches, or [null]. *)
Definition matches (s : string) : option (list string) :=
  match matchesFrom 0 s with
  | [] => None
  | ms => Some ms
  end.

End AddressRegExp.

(** ** The hook *)

(** The interface [TokenBalanceErrorMessage].  The description is declared
    a string, but the error's [message] flows into it unchecked. *)
Record TokenBalanceErrorMessage : Type := {
  message : string;
  description : value
}.

(** A call of [console.warn], with the [errorCode] spliced into its first
    argument and the error passed as its second. *)
Record ConsoleWarn : Type := {
  warnErrorCode : value;
  warnError : value
}.

Definition console : Type := list ConsoleWarn.

Definition UNINITIALIZED_CONTRACT : string :=
  "StarknetErrorCode.UNINITIALIZED_CONTRACT".

(** [message.match(...)]: the method of strings when [message] is one;
    otherwise there is no [match] to read ([undefined], [null]) or none to
    call, and the engine throws: numbers and booleans have no such method,
    and an object of the model has data for properties, no functions (a
    [String] object, or an object with a method [match] of its own, is not
    a value of the model). *)
Definition messageMatch (message : value) : completion (option (list string)) :=
  match message with
  | VStr s => Normal (AddressRegExp.matches s)
  | _ => Throw TypeError
  end.

(** [contractAddressMatches?.[0] ?? undefined] *)
Definition firstOf (contractAddressMatches : option (list string)) : option string :=
  match contractAddressMatches with
  | Some (m :: _) => Some m
  | _ => None
  end.

(** [errorCode === "StarknetErrorCode.UNINITIALIZED_CONTRACT"] *)
Definition strictEqualsString (v : value) (s : string) : bool :=
  match v with
  | VStr t => t =? s
  | _ => false
  end.

(** The six object literals that [errorToMessage] returns. *)
Definition tokenNotFound (tokenAddress : string) : TokenBalanceErrorMessage :=
  {| message := "Token not found";
     description :=
       VStr ("Token with address " ++ tokenAddress ++
             " not deployed on this network") |}.

Definition noMulticall (multicallAddress : string) : TokenBalanceErrorMessage :=
  {| message := "No Multicall";
     description :=
       VStr ("Multicall contract with address " ++ multicallAddress ++
             " not deployed on this network") |}.

Definition missingContractAt (contractAddress : string) : TokenBalanceErrorMessage :=
  {| message := "Missing contract";
     description :=
       VStr ("Contract with address " ++ contractAddress ++
             " not deployed on this network") |}.

Definition missingContract (message : value) : TokenBalanceErrorMessage :=
  {| message := "Missing contract"; description := message |}.

Definition networkError (message : value) : TokenBalanceErrorMessage :=
  {| message := "Network error"; description := message |}.

Definition genericError (message : value) : TokenBalanceErrorMessage :=
  {| message := "Error"; description := message |}.

(** The tokens, networks and accounts the hook is called with. *)
Module BaseToken.
Record t : Type := { address : string; networkId : string }.
End BaseToken.

Module Network.
Record t : Type := { multicallAddress : option string }.
End Network.

Module Account.
Record t : Type := { address : string; network : Network.t }.
End Account.

(** [[ ... ].filter(Boolean)] on an array of strings and [undefined]s. *)
Fixpoint filterBoolean (xs : list (option string)) : list string :=
  match xs with
  | [] => []
  | x :: rest =>
      if truthy x
      then match x with
           | Some s => s :: filterBoolean rest
           | None => filterBoolean rest
           end
      else filterBoolean rest
  end.

(** The SWR key of the hook, from the four components it is made of;
    [String.concat] is [Array.prototype.join]. *)
Definition key (tokenAddress networkId accountAddress : string)
    (multicallAddress : option string) : string :=
  String.concat "-"
    (filterBoolean
       [Some "balanceOf"; Some tokenAddress; Some networkId;
        Some accountAddress; multicallAddress]).

(** The effect of the hook, run with the ref holding [current] and
    [pendingTransactions.length] being [length]: whether [mutate] is called,
    and the new content of the ref. *)
Definition effect (current length : nat) : bool * nat :=
  ((length <? current)%nat, length).

(** What a mounted hook keeps between renders: the ref, and the
    [pendingTransactions.length] its effect last ran with.  ([mutate], the
    other dependency of the effect, is the same function on every render of
    a mounted SWR hook.) *)
Record HookState : Type := {
  pendingTransactionsLengthRef : nat;
  effectDeps : nat
}.

(** One render with [pendingTransactions.length = length], the effect
    included: the new state and whether [mutate] was called.  The first
    render creates the ref from [length] and always runs the effect; a later
    one runs it when the dependency changed. *)
Definition render (st : option HookState) (length : nat) : HookState * bool :=
  match st with
  | None =>
      let '(fired, current) := effect length length in
      ({| pendingTransactionsLengthRef := current; effectDeps := length |}, fired)
  | Some st =>
      if (length =? effectDeps st)%nat then (st, false)
      else
        let '(fired, current) := effect (pendingTransactionsLengthRef st) length in
        ({| pendingTransactionsLengthRef := current; effectDeps := length |}, fired)
  end.

(** A sequence of renders: whether each called [mutate], and the state left. *)
Fixpoint renders (st : option HookState) (lengths : list nat)
  : list bool * option HookState :=
  match lengths with
  | [] => ([], st)
  | length :: rest =>
      let '(st', fired) := render st length in
      let '(fs, final) := renders (Some st') rest in
      (fired :: fs, final)
  end.

Section Hook.

(** [isNumeric] of shared/utils/number. *)
Variable isNumeric : value -> bool.

(** [isEqualAddress] of ui/services/addresses. *)
Variable isEqualAddress : string -> string -> bool.

(** [IS_DEV] of shared/utils/dev. *)
Variable IS_DEV : bool.

(** [getTokenBalanceForWalletAccount] of shared/multicall, as the way its
    promise settles, and [Account.toBaseWalletAccount]. *)
Variable BaseWalletAccount : Type.
Variable toBaseWalletAccount : Account.t -> BaseWalletAccount.
Variable getTokenBalanceForWalletAccount :
  string -> BaseWalletAccount -> settled string value.

Definition isNetworkError (errorCode : value) : bool :=
  if negb (isNumeric errorCode) then false
  else
    let code := Number errorCode in
    includes [Finite 429; Finite 502] code.

(** [multicallAddress && isEqualAddress(contractAddress, multicallAddress)] *)
Definition isMulticall (contractAddress : string)
    (multicallAddress : option string) : bool :=
  match multicallAddress with
  | Some multicall =>
      truthyString multicall && isEqualAddress contractAddress multicall
  | None => false
  end.

(** [errorToMessage]: what it writes to the console, and how it completes. *)
Definition errorToMessage (error : value) (tokenAddress : string)
    (multicallAddress : option string)
  : console * completion TokenBalanceErrorMessage :=
  let errorCode := Lodash.get error "errorCode" in
  let message := Lodash.get error "message" in
  if strictEqualsString errorCode UNINITIALIZED_CONTRACT then
    match messageMatch message with
    | Throw e => ([], Throw e)
    | Normal contractAddressMatches =>
        match firstOf contractAddressMatches with
        | Some contractAddress =>
            if truthyString contractAddress then
              if isEqualAddress contractAddress tokenAddress then
                ([], Normal (tokenNotFound tokenAddress))
              else if isMulticall contractAddress multicallAddress then
                ([], Normal (noMulticall (interpolate multicallAddress)))
              else ([], Normal (missingContractAt contractAddress))
            else ([], Normal (missingContract message))
        | None => ([], Normal (missingContract message))
        end
    end
  else if isNetworkError errorCode then
    ([], Normal (networkError message))
  else
    ((if IS_DEV
      then [{| warnErrorCode := errorCode; warnError := error |}]
      else []),
     Normal (genericError message)).

(** The fetcher that the hook hands to [useSWR]: what it writes to the
    console, and how its promise settles. *)
Definition fetcher (token : BaseToken.t) (account : Account.t)
    (shouldReturnError : bool)
  : console * settled (string + TokenBalanceErrorMessage) exn :=
  match getTokenBalanceForWalletAccount
          (BaseToken.address token) (toBaseWalletAccount account) with
  | Fulfilled balance => ([], Fulfilled (inl balance))
  | Rejected error =>
      if shouldReturnError then
        match errorToMessage error (BaseToken.address token)
                (Network.multicallAddress (Account.network account)) with
        | (out, Normal classified) => (out, Fulfilled (inr classified))
        | (out, Throw e) => (out, Rejected e)
        end
      else ([], Rejected (Raised error))
  end.

(** The key that the hook hands to [useSWR]. *)
Definition hookKey (token : BaseToken.t) (account : Account.t) : string :=
  key (BaseToken.address token) (BaseToken.networkId token)
      (Account.address account)
      (Network.multicallAddress (Account.network account)).

End Hook.

(** ** Vocabulary of the specification *)

(** The label of the message a call of [errorToMessage] returned, if it
    returned. *)
Definition label (r : console * completion TokenBalanceErrorMessage)
  : option string :=
  match snd r with
  | Normal m => Some (message m)
  | Throw _ => None
  end.

(** The five labels. *)
Definition LABELS : list string :=
  ["Token not found"; "No Multicall"; "Missing contract"; "Network error";
   "Error"].

(** A string shaped like a hexadecimal address: [0], [x] or [X], and one
    hexadecimal digit or more. *)
Fixpoint allHex (s : string) : bool :=
  match s with
  | String c r => isHexDigit c && allHex r
  | EmptyString => true
  end.

Definition addressShaped (a : string) : Prop :=
  exists x digits,
    a = String "0" (String x digits) /\
    (x = "x" \/ x = "X")%char /\
    digits <> EmptyString /\
    allHex digits = true.

(** [post] does not go on with a hexadecimal digit. *)
Definition stopsHex (post : string) : Prop :=
  match post with
  | String c _ => isHexDigit c = false
  | EmptyString => True
  end.

(** [a] is the first address of the text [m]: it occurs in [m] taken as
    long as it can be, and no address-shaped string occurs further left. *)
Definition firstAddress (m a : string) : Prop :=
  exists pre post,
    m = pre ++ a ++ post /\
    addressShaped a /\
    stopsHex post /\
    forall pre' a' post',
      m = pre' ++ a' ++ post' -> addressShaped a' ->
      (String.length pre <= String.length pre')%nat.

(** No address-shaped string occurs in [m]. *)
Definition noAddress (m : string) : Prop :=
  forall pre a post, m = pre ++ a ++ post -> ~ addressShaped a.

(** The decision table for an undeployed contract, with the label and the
    text of each answer written out: which message answers the text [m],
    for the helper [isEqualAddress] at hand.  A multicall address counts
    when it is there and is not the empty string. *)
Inductive Undeployed (isEqualAddress : string -> string -> bool)
    (m tokenAddress : string) (multicallAddress : option string)
  : TokenBalanceErrorMessage -> Prop :=
| UndeployedToken a :
    firstAddress m a ->
    isEqualAddress a tokenAddress = true ->
    Undeployed isEqualAddress m tokenAddress multicallAddress
      {| message := "Token not found";
         description :=
           VStr ("Token with address " ++ tokenAddress ++
                 " not deployed on this network") |}
| UndeployedMulticall a multicall :
    firstAddress m a ->
    isEqualAddress a tokenAddress = false ->
    multicallAddress = Some multicall ->
    multicall <> "" ->
    isEqualAddress a multicall = true ->
    Undeployed isEqualAddress m tokenAddress multicallAddress
      {| message := "No Multicall";
         description :=
           VStr ("Multicall contract with address " ++ multicall ++
                 " not deployed on this network") |}
| UndeployedOther a :
    firstAddress m a ->
    isEqualAddress a tokenAddress = false ->
    (forall multicall,
        multicallAddress = Some multicall -> multicall <> "" ->
        isEqualAddress a multicall = false) ->
    Undeployed isEqualAddress m tokenAddress multicallAddress
      {| message := "Missing contract";
         description :=
           VStr ("Contract with address " ++ a ++
                 " not deployed on this network") |}
| UndeployedUnknown :
    noAddress m ->
    Undeployed isEqualAddress m tokenAddress multicallAddress
      {| message := "Missing contract"; description := VStr m |}.

(** [sub] occurs in [s]. *)
Fixpoint isSubstring (sub s : string) : bool :=
  String.prefix sub s ||
  match s with
  | String _ r => isSubstring sub r
  | EmptyString => false
  end.



(** Lower case of the letters A to Z. *)
Definition toLowerCase (c : ascii) : ascii :=
  if inRange 65 90 c then ascii_of_nat (nat_of_ascii c + 32) else c.

Fixpoint lowerCase (s : string) : string :=
  match s with
  | String c r => String (toLowerCase c) (lowerCase r)
  | EmptyString => EmptyString
  end.

(** Modelled from the spec: [isEqualAddress] of ui/services/addresses is not
    among the sources; the specification has it compare two addresses
    ignoring case.  It stands for the helper in the examples. *)
Definition isEqualAddressSpec (a b : string) : bool :=
  lowerCase a =? lowerCase b.

(** An address without its [0x] and without its leading zeros. *)
Definition stripHexPrefix (s : string) : string :=
  match s with
  | String z (String x r) =>
      if (z =? "0")%char && ((x =? "x")%char || (x =? "X")%char) then r else s
  | _ => s
  end.

Fixpoint stripZeros (s : string) : string :=
  match s with
  | String c r => if (c =? "0")%char then stripZeros r else s
  | EmptyString => EmptyString
  end.

(** Modelled from the spec: a second stand-in for [isEqualAddress], which
    the specification also has ignore padding: two addresses are equal when
    they are so without their prefix and leading zeros, ignoring case. *)
Definition isEqualAddressPadded (a b : string) : bool :=
  lowerCase (stripZeros (stripHexPrefix a)) =?
  lowerCase (stripZeros (stripHexPrefix b)).

(** Modelled from the spec: [isNumeric] of shared/utils/number is not among
    the sources; the specification has it a validity check that accepts a
    number, or a string that denotes one, and rejects what is absent.  It
    stands for the helper in the examples. *)
Definition isNumericSpec (v : value) : bool :=
  match v with
  | VNum (Finite _) => true
  | VStr s =>
      match trimStart s, StringToNumber s with
      | String _ _, Finite _ => true
      | _, _ => false
      end
  | _ => false
  end.

(** The precondition on the components of a key: the first three are not
    empty, and neither is a multicall address that is there. *)
Definition keyComponents (tokenAddress networkId accountAddress : string)
    (multicallAddress : option string) : Prop :=
  tokenAddress <> "" /\ networkId <> "" /\ accountAddress <> "" /\
  multicallAddress <> Some "".

(** The separator of the key does not occur in [s]. *)
Fixpoint separatorFree (s : string) : bool :=
  match s with
  | String c r => negb (c =? "-")%char && separatorFree r
  | EmptyString => true
  end.

(** Two tuples of components that agree on three of the four. *)
Definition agreeOnThree (tokenAddress networkId accountAddress : string)
    (multicallAddress : option string)
    (tokenAddress' networkId' accountAddress' : string)
    (multicallAddress' : option string) : Prop :=
  (networkId = networkId' /\ accountAddress = accountAddress' /\
   multicallAddress = multicallAddress') \/
  (tokenAddress = tokenAddress' /\ accountAddress = accountAddress' /\
   multicallAddress = multicallAddress') \/
  (tokenAddress = tokenAddress' /\ networkId = networkId' /\
   multicallAddress = multicallAddress') \/
  (tokenAddress = tokenAddress' /\ networkId = networkId' /\
   accountAddress = accountAddress').

(** What the multicall address adds to the key. *)
Definition multicallSuffix (multicallAddress : option string) : string :=
  match multicallAddress with
  | Some multicall => "-" ++ multicall
  | None => ""
  end.

(** ** The ledger page *)

Module React.

(** What can stand as the child of an element.  [Empty] is any of [null],
    [undefined], [true] and [false], which render nothing; [Text] is a
    string or a number; an [Element] has the value of its [children] prop;
    keys are left out. *)
#[warnings="-register-all"]
Inductive node : Type :=
| Empty
| Text (s : string)
| Element (tag : string) (children : node)
| Array (items : list node).

(** [Children.toArray(children)]: the children as one flat array, the
    nested arrays opened and the empty nodes dropped. *)
Fixpoint toArray (children : node) : list node :=
  match children with
  | Empty => []
  | Array items => flat_map toArray items
  | _ => [children]
  end.

End React.

(** [const [panel, ...restChildren] = Children.toArray(children)]; a
    [panel] that is [undefined] is [Empty]. *)
Definition splitChildren (children : React.node)
  : React.node * list React.node :=
  match React.toArray children with
  | [] => (React.Empty, [])
  | panel :: restChildren => (panel, restChildren)
  end.

(** The component [LedgerPage]: the element it returns for its children. *)
Definition LedgerPage (children : React.node) : React.node :=
  let '(panel, restChildren) := splitChildren children in
  React.Element "Fragment"
    (React.Array
       [React.Element "Header" (React.Element "ArgentXBanner" React.Empty);
        React.Element "PageWrapper"
          (React.Array
             [React.Element "Panel" (React.Array restChildren);
              React.Element "Panel" panel])]).

(** The two panels of a page, as the children each of them is given. *)
Definition panelsOf (page : React.node) : option (React.node * React.node) :=
  match page with
  | React.Element _
      (React.Array
         [_; React.Element _
               (React.Array
                  [React.Element _ first; React.Element _ second])]) =>
      Some (first, second)
  | _ => None
  end.

(** [typeof v === "string"] *)
Definition isString (v : value) : bool :=
  match v with
  | VStr _ => true
  | _ => false
  end.

(** ** Inputs used in the examples *)

(** The error of a gateway that answers for a contract it does not know. *)
Definition undeployedError (text : string) : value :=
  VObj [("errorCode", VStr UNINITIALIZED_CONTRACT); ("message", VStr text)].

(** The same error code with nothing else, and with a message that is not a
    string. *)
Definition bareUndeployedError : value :=
  VObj [("errorCode", VStr UNINITIALIZED_CONTRACT)].

Definition numberedUndeployedError : value :=
  VObj [("errorCode", VStr UNINITIALIZED_CONTRACT);
        ("message", VNum (Finite 404))].

Definition codedError (errorCode : value) (text : string) : value :=
  VObj [("errorCode", errorCode); ("message", VStr text)].

Definition etherToken : BaseToken.t :=
  {| BaseToken.address := "0x049D36570D4e46f48e99674bd3fcc84644DdD6b9";
     BaseToken.networkId := "goerli-alpha" |}.

Definition someAccount : Account.t :=
  {| Account.address := "0x0123abc";
     Account.network := {| Network.multicallAddress := Some "0x05754af3760f" |} |}.

(** A balance query that is fulfilled for every token and account. *)
Definition getTokenBalanceForWalletAccountExample (tokenAddress : string)
    (account : Account.t) : settled string value :=
  Fulfilled "42".

(** ** Examples *)

Example StringToNumber_429 : StringToNumber "429" = Finite (429 # 1).
Proof. reflexivity. Qed.

Example StringToNumber_429x : StringToNumber "429x" = NaN.
Proof. reflexivity. Qed.

Example StringToNumber_exp : StringToNumber " 4.29e2 " = Finite (429 # 1).
Proof. vm_compute. reflexivity. Qed.

Example StringToNumber_hex : StringToNumber "0x1AD" = Finite (429 # 1).
Proof. reflexivity. Qed.

Example matches_example :
  AddressRegExp.matches "Requested contract address 0x05754aF3 is not deployed, see 0X1f"
  = Some ["0x05754aF3"; "0X1f"].
Proof. reflexivity. Qed.

Example key_example :
  key "0xT" "goerli-alpha" "0xA" (Some "0xM") = "balanceOf-0xT-goerli-alpha-0xA-0xM".
Proof. reflexivity. Qed.

Example classify_token_not_found :
  errorToMessage isNumericSpec isEqualAddressSpec false
    (undeployedError
       "Requested contract address 0x049d36570d4e46f48e99674bd3fcc84644ddd6b9 is not deployed")
    (BaseToken.address etherToken)
    (Network.multicallAddress (Account.network someAccount))
  = ([], Normal (tokenNotFound "0x049D36570D4e46f48e99674bd3fcc84644DdD6b9")).
Proof. reflexivity. Qed.

Example classify_no_multicall :
  errorToMessage isNumericSpec isEqualAddressSpec false
    (undeployedError "Requested contract address 0x05754AF3760F is not deployed")
    (BaseToken.address etherToken)
    (Network.multicallAddress (Account.network someAccount))
  = ([], Normal (noMulticall "0x05754af3760f")).
Proof. reflexivity. Qed.

Example classify_missing_contract_at :
  errorToMessage isNumericSpec isEqualAddressSpec false
    (undeployedError "Requested contract address 0xabc is not deployed")
    (BaseToken.address etherToken)
    (Network.multicallAddress (Account.network someAccount))
  = ([], Normal (missingContractAt "0xabc")).
Proof. reflexivity. Qed.

Example classify_missing_contract :
  errorToMessage isNumericSpec isEqualAddressSpec false
    (undeployedError "Requested contract is not deployed")
    (BaseToken.address etherToken)
    (Network.multicallAddress (Account.network someAccount))
  = ([], Normal (missingContract (VStr "Requested contract is not deployed"))).
Proof. reflexivity. Qed.

Example classify_bad_gateway :
  errorToMessage isNumericSpec isEqualAddressSpec true
    (codedError (VNum (Finite 502)) "Bad Gateway")
    (BaseToken.address etherToken) None
  = ([], Normal (networkError (VStr "Bad Gateway"))).
Proof. reflexivity. Qed.

Example classify_internal_error :
  errorToMessage isNumericSpec isEqualAddressSpec true
    (codedError (VNum (Finite 500)) "Internal Server Error")
    (BaseToken.address etherToken) None
  = ([{| warnErrorCode := VNum (Finite 500);
         warnError := codedError (VNum (Finite 500)) "Internal Server Error" |}],
     Normal (genericError (VStr "Internal Server Error"))).
Proof. reflexivity. Qed.

Example renders_example :
  fst (renders None [3; 3; 5; 2; 2; 4]%nat) = [false; false; false; true; false; false].
Proof. reflexivity. Qed.

(** ** Strings *)

Lemma append_nil_r (s : string) : s ++ "" = s.
Proof. induction s as [|c s IH]; simpl; [reflexivity | now rewrite IH]. Qed.

Lemma append_assoc (s t u : string) : (s ++ t) ++ u = s ++ t ++ u.
Proof. induction s as [|c s IH]; simpl; [reflexivity | now rewrite IH]. Qed.

Lemma length_append (s t : string) :
  String.length (s ++ t) = (String.length s + String.length t)%nat.
Proof. induction s as [|c s IH]; simpl; [reflexivity | now rewrite IH]. Qed.

Lemma append_cancel_l (s t u : string) : s ++ t = s ++ u -> t = u.
Proof.
  induction s as [|c s IH]; simpl; intros H; [exact H|].
  injection H as H. auto.
Qed.

Lemma append_cancel_r (s t u : string) : s ++ u = t ++ u -> s = t.
Proof.
  revert t. induction s as [|c s IH]; intros [|d t] H; simpl in H.
  - reflexivity.
  - apply (f_equal String.length) in H. simpl in H.
    rewrite length_append in H. lia.
  - apply (f_equal String.length) in H. simpl in H.
    rewrite length_append in H. lia.
  - injection H as -> H. f_equal. auto.
Qed.

(** ** The regular expression finds the first address *)

Section RegExp.
Import AddressRegExp.

Lemma hexRun_allHex (s : string) : allHex (hexRun s) = true.
Proof.
  induction s as [|c s IH]; simpl; [reflexivity|].
  destruct (isHexDigit c) eqn:E; simpl; [now rewrite E|reflexivity].
Qed.

Lemma hexRun_split (s : string) :
  exists post, s = hexRun s ++ post /\ stopsHex post.
Proof.
  induction s as [|c s [post [IH Hstop]]]; simpl.
  - exists "". split; [reflexivity | exact I].
  - destruct (isHexDigit c) eqn:E; simpl.
    + exists post. split; [now rewrite <- IH | exact Hstop].
    + exists (String c s). split; [reflexivity | exact E].
Qed.

Lemma hexRun_unique (d post : string) :
  allHex d = true -> stopsHex post -> hexRun (d ++ post) = d.
Proof.
  intros Hd Hpost. induction d as [|c d IH]; simpl in *.
  - destruct post as [|c r]; simpl in *; [reflexivity | now rewrite Hpost].
  - apply andb_prop in Hd as [Hc Hd]. rewrite Hc. now rewrite IH.
Qed.

Lemma matchHere_sound (s a : string) :
  matchHere s = Some a ->
  exists post, s = a ++ post /\ addressShaped a /\ stopsHex post.
Proof.
  destruct s as [|z [|x [|h r]]]; simpl; try discriminate.
  destruct ((z =? "0")%char && ((x =? "x")%char || (x =? "X")%char)
            && isHexDigit h) eqn:E; [|discriminate].
  intros [= <-].
  apply andb_prop in E as [E Hh]. apply andb_prop in E as [Hz Hx].
  apply Ascii.eqb_eq in Hz. subst z.
  destruct (hexRun_split r) as [post [Hr Hpost]].
  exists post. split; [|split].
  - simpl. now rewrite <- Hr.
  - exists x, (String h (hexRun r)). repeat split.
    + apply orb_prop in Hx as [Hx|Hx]; apply Ascii.eqb_eq in Hx; auto.
    + discriminate.
    + simpl. now rewrite Hh, hexRun_allHex.
  - exact Hpost.
Qed.

Lemma matchHere_complete (a post : string) :
  addressShaped a -> stopsHex post -> matchHere (a ++ post) = Some a.
Proof.
  intros (x & digits & -> & Hx & Hne & Hall) Hpost.
  destruct digits as [|h d]; [congruence|]. simpl in Hall.
  apply andb_prop in Hall as [Hh Hd]. simpl.
  rewrite Hh, (hexRun_unique d post Hd Hpost).
  destruct Hx as [-> | ->]; reflexivity.
Qed.

Lemma matchHere_none (s : string) :
  matchHere s = None ->
  forall a post, s = a ++ post -> ~ addressShaped a.
Proof.
  intros Hnone a post -> (x & digits & -> & Hx & Hne & Hall).
  destruct digits as [|h d]; [congruence|]. simpl in Hall.
  apply andb_prop in Hall as [Hh Hd]. simpl in Hnone.
  rewrite Hh in Hnone. destruct Hx as [-> | ->]; discriminate.
Qed.

Lemma firstOf_matches (s : string) :
  firstOf (matches s) = hd_error (matchesFrom 0 s).
Proof. unfold matches. now destruct (matchesFrom 0 s). Qed.

Lemma matchesFrom_head (c : ascii) (r : string) :
  hd_error (matchesFrom 0 (String c r)) =
  match matchHere (String c r) with
  | Some m => Some m
  | None => hd_error (matchesFrom 0 r)
  end.
Proof.
  change (matchesFrom 0 (String c r)) with
    (match matchHere (String c r) with
     | Some m => m :: matchesFrom (String.length m - 1) r
     | None => matchesFrom 0 r
     end).
  now destruct (matchHere (String c r)).
Qed.

Lemma first_sound (s a : string) :
  hd_error (matchesFrom 0 s) = Some a -> firstAddress s a.
Proof.
  revert a. induction s as [|c r IH]; intros a; [discriminate|].
  rewrite matchesFrom_head.
  destruct (matchHere (String c r)) as [m|] eqn:E.
  - intros [= ->]. apply matchHere_sound in E as (post & Hs & Ha & Hpost).
    exists "", post. repeat split; auto. intros; simpl; lia.
  - intros H. destruct (IH a H) as (pre & post & Hr & Ha & Hpost & Hleft).
    exists (String c pre), post. repeat split; auto.
    + simpl. now rewrite <- Hr.
    + intros [|c' pre'] a' post' Hs Ha'.
      * exfalso. exact (matchHere_none _ E a' post' Hs Ha').
      * simpl in Hs. injection Hs as -> Hs.
        simpl. apply le_n_S. exact (Hleft pre' a' post' Hs Ha').
Qed.

Lemma first_none (s : string) :
  hd_error (matchesFrom 0 s) = None -> noAddress s.
Proof.
  induction s as [|c r IH].
  - intros _ [|c pre] a post H (x & digits & -> & _); simpl in H; discriminate.
  - rewrite matchesFrom_head.
    destruct (matchHere (String c r)) as [m|] eqn:E; [discriminate|].
    intros H [|c' pre] a post Hs Ha.
    + exact (matchHere_none _ E a post Hs Ha).
    + simpl in Hs. injection Hs as -> Hs. exact (IH H pre a post Hs Ha).
Qed.

Lemma firstAddress_occurs (s a : string) :
  firstAddress s a -> ~ noAddress s.
Proof.
  intros (pre & post & Hs & Ha & _) Hno. exact (Hno pre a post Hs Ha).
Qed.

Lemma first_complete (s a : string) :
  firstAddress s a -> hd_error (matchesFrom 0 s) = Some a.
Proof.
  intros (pre & post & -> & Ha & Hpost & Hleft).
  induction pre as [|c pre IH].
  - change ("" ++ a ++ post) with (a ++ post).
    pose proof (matchHere_complete a post Ha Hpost) as E.
    destruct (a ++ post) as [|c r] eqn:Es; [discriminate|].
    rewrite matchesFrom_head. now rewrite E.
  - change (String c pre ++ a ++ post) with (String c (pre ++ a ++ post)).
    rewrite matchesFrom_head.
    destruct (matchHere (String c (pre ++ a ++ post))) as [m|] eqn:E.
    + apply matchHere_sound in E as (post' & Hs & Ha' & _).
      specialize (Hleft "" m post' Hs Ha'). simpl in Hleft. lia.
    + apply IH. intros pre' a' post' Hs Ha'.
      assert (H : (String.length (String c pre) <= String.length (String c pre'))%nat).
      { apply Hleft with a' post'; [simpl; now rewrite Hs | exact Ha']. }
      simpl in H. lia.
Qed.

(** The first element of the array of matches is the first address of the
    text, and there is none when the text holds no address. *)
Lemma firstOf_matches_spec (s : string) :
  match firstOf (matches s) with
  | Some a => firstAddress s a
  | None => noAddress s
  end.
Proof.
  rewrite firstOf_matches.
  destruct (hd_error (matchesFrom 0 s)) eqn:E;
    [now apply first_sound | now apply first_none].
Qed.

Lemma firstAddress_iff (s a : string) :
  firstAddress s a <-> firstOf (matches s) = Some a.
Proof.
  rewrite firstOf_matches. split; [apply first_complete | apply first_sound].
Qed.

Lemma noAddress_iff (s : string) :
  noAddress s <-> firstOf (matches s) = None.
Proof.
  rewrite firstOf_matches. split; [|apply first_none].
  intros Hno. destruct (hd_error (matchesFrom 0 s)) eqn:E; [|reflexivity].
  exfalso. exact (firstAddress_occurs s s0 (first_sound s s0 E) Hno).
Qed.

(** A match is never the empty string. *)
Lemma firstAddress_truthy (s a : string) :
  firstAddress s a -> truthyString a = true.
Proof. intros (_ & _ & _ & (x & digits & -> & _) & _). reflexivity. Qed.

End RegExp.

(** ** The classifier *)

Section Classifier.

Variable isNumeric : value -> bool.
Variable isEqualAddress : string -> string -> bool.
Variable IS_DEV : bool.

Local Abbreviation classify := (errorToMessage isNumeric isEqualAddress IS_DEV).

Lemma strictEqualsString_true (v : value) (s : string) :
  strictEqualsString v s = true <-> v = VStr s.
Proof.
  destruct v; simpl; split; try discriminate; intros H.
  - apply String.eqb_eq in H. now subst.
  - injection H as ->. apply String.eqb_refl.
Qed.

(** The first branch, on a message that is a string. *)
Lemma classify_undeployed (error : value) (text tokenAddress : string)
    (multicallAddress : option string) :
  Lodash.get error "errorCode" = VStr UNINITIALIZED_CONTRACT ->
  Lodash.get error "message" = VStr text ->
  classify error tokenAddress multicallAddress =
  ([], Normal
         match firstOf (AddressRegExp.matches text) with
         | Some contractAddress =>
             if isEqualAddress contractAddress tokenAddress
             then tokenNotFound tokenAddress
             else if isMulticall isEqualAddress contractAddress multicallAddress
             then noMulticall (interpolate multicallAddress)
             else missingContractAt contractAddress
         | None => missingContract (VStr text)
         end).
Proof.
  intros Hcode Htext. unfold errorToMessage. rewrite Hcode, Htext.
  unfold strictEqualsString, messageMatch. rewrite String.eqb_refl.
  pose proof (firstOf_matches_spec text) as Hfirst.
  destruct (firstOf (AddressRegExp.matches text)) as [a|]; [|reflexivity].
  rewrite (firstAddress_truthy text a Hfirst).
  destruct (isEqualAddress a tokenAddress); [reflexivity|].
  now destruct (isMulticall isEqualAddress a multicallAddress).
Qed.

(** The first branch, on a message that is not a string. *)
Lemma classify_undeployed_throws (error : value) (tokenAddress : string)
    (multicallAddress : option string) :
  Lodash.get error "errorCode" = VStr UNINITIALIZED_CONTRACT ->
  (forall text, Lodash.get error "message" <> VStr text) ->
  classify error tokenAddress multicallAddress = ([], Throw TypeError).
Proof.
  intros Hcode Htext. unfold errorToMessage. rewrite Hcode.
  unfold strictEqualsString. rewrite String.eqb_refl.
  destruct (Lodash.get error "message") as [| | | |text|]; try reflexivity.
  now destruct (Htext text).
Qed.

(** The other two branches. *)
Lemma classify_other (error : value) (tokenAddress : string)
    (multicallAddress : option string) :
  Lodash.get error "errorCode" <> VStr UNINITIALIZED_CONTRACT ->
  classify error tokenAddress multicallAddress =
  if isNetworkError isNumeric (Lodash.get error "errorCode")
  then ([], Normal (networkError (Lodash.get error "message")))
  else ((if IS_DEV
         then [{| warnErrorCode := Lodash.get error "errorCode";
                  warnError := error |}]
         else []),
        Normal (genericError (Lodash.get error "message"))).
Proof.
  intros Hcode. unfold errorToMessage.
  destruct (strictEqualsString _ UNINITIALIZED_CONTRACT) eqn:E; [|reflexivity].
  apply strictEqualsString_true in E. contradiction.
Qed.

Lemma value_string_dec (v : value) :
  (exists text, v = VStr text) \/ (forall text, v <> VStr text).
Proof. destruct v; try (right; intros; discriminate). left; eauto. Qed.

Lemma UNINITIALIZED_CONTRACT_dec (v : value) :
  v = VStr UNINITIALIZED_CONTRACT \/ v <> VStr UNINITIALIZED_CONTRACT.
Proof.
  destruct (strictEqualsString v UNINITIALIZED_CONTRACT) eqn:E.
  - left. now apply strictEqualsString_true.
  - right. intros H. apply strictEqualsString_true in H. congruence.
Qed.


End Classifier.

Lemma firstAddress_unique (s a a' : string) :
  firstAddress s a -> firstAddress s a' -> a = a'.
Proof.
  rewrite !firstAddress_iff. congruence.
Qed.

Lemma truthyString_true (s : string) : truthyString s = true <-> s <> "".
Proof.
  unfold truthyString. rewrite negb_true_iff. apply String.eqb_neq.
Qed.

Lemma isMulticall_true (isEqualAddress : string -> string -> bool)
    (a : string) (multicallAddress : option string) :
  isMulticall isEqualAddress a multicallAddress = true <->
  exists multicall,
    multicallAddress = Some multicall /\ multicall <> "" /\
    isEqualAddress a multicall = true.
Proof.
  destruct multicallAddress as [multicall|]; simpl.
  - rewrite andb_true_iff, truthyString_true. split.
    + intros [H1 H2]. now exists multicall.
    + now intros (m & [= <-] & H1 & H2).
  - split; [discriminate | now intros (m & [=] & _)].
Qed.

(** The answer to an undeployed token does not tell the network: its text
    ends with "on this network" for every token, and the id of the network
    of the token, here goerli-alpha, occurs nowhere in it.  And a multicall
    address that is there but is the empty string does not count: with a
    helper that equates the address found, 0x0, with it, the answer is a
    missing contract, not a missing multicall. *)
Lemma errorToMessage_undeployed_contract_not_as_stated :
  (errorToMessage isNumericSpec isEqualAddressSpec false
     (undeployedError
        "Requested contract address 0x049d36570d4e46f48e99674bd3fcc84644ddd6b9 is not deployed")
     (BaseToken.address etherToken) None
   = ([], Normal
            {| message := "Token not found";
               description :=
                 VStr "Token with address 0x049D36570D4e46f48e99674bd3fcc84644DdD6b9 not deployed on this network" |})
   /\
   isSubstring (BaseToken.networkId etherToken)
     "Token with address 0x049D36570D4e46f48e99674bd3fcc84644DdD6b9 not deployed on this network"
   = false)
  /\
  (isEqualAddressPadded "0x0" "0x1" = false /\
   isEqualAddressPadded "0x0" "" = true /\
   errorToMessage isNumericSpec isEqualAddressPadded false
     (undeployedError "Requested contract address 0x0 is not deployed")
     "0x1" (Some "")
   = ([], Normal
            {| message := "Missing contract";
               description :=
                 VStr "Contract with address 0x0 not deployed on this network" |})).
Proof. repeat split. Qed.

(** C1, as the code has it.  For an error whose code is that of an
    undeployed contract and whose message is a string, [errorToMessage]
    returns, without writing to the console, the one message that the
    decision table gives for the first address of the message:
    "Token not found", with the text "Token with address [tokenAddress] not
    deployed on this network", when [isEqualAddress] equates the address
    with the token's; else "No Multicall", with the text "Multicall
    contract with address [multicallAddress] not deployed on this network",
    when the multicall address is there, is not the empty string and is
    equated with the address; else "Missing contract" with the text
    "Contract with address [the address found] not deployed on this
    network"; and "Missing contract" with the message itself when the
    message holds no address.  The table gives no other message, so its
    rows are taken in that order. *)
Theorem errorToMessage_undeployed_contract :
  forall (isNumeric : value -> bool) (isEqualAddress : string -> string -> bool)
         (IS_DEV : bool) (error : value) (text tokenAddress : string)
         (multicallAddress : option string),
    Lodash.get error "errorCode" = VStr UNINITIALIZED_CONTRACT ->
    Lodash.get error "message" = VStr text ->
    exists r,
      errorToMessage isNumeric isEqualAddress IS_DEV error tokenAddress
        multicallAddress = ([], Normal r) /\
      Undeployed isEqualAddress text tokenAddress multicallAddress r /\
      forall r',
        Undeployed isEqualAddress text tokenAddress multicallAddress r' ->
        r' = r.
Proof.
  intros isNumeric isEqualAddress IS_DEV error text tokenAddress
    multicallAddress Hcode Htext.
  rewrite (classify_undeployed _ _ _ _ _ _ _ Hcode Htext).
  eexists. split; [reflexivity|].
  pose proof (firstOf_matches_spec text) as Hfirst.
  destruct (firstOf (AddressRegExp.matches text)) as [a|].
  - destruct (isEqualAddress a tokenAddress) eqn:Etoken;
      [|destruct (isMulticall isEqualAddress a multicallAddress) eqn:Emulti].
    + split; [now apply UndeployedToken with a|].
      intros r' Hr'. inversion Hr' as [a' Ha' E|a' m Ha' E|a' Ha' E|Hno];
        try reflexivity;
        try (rewrite (firstAddress_unique _ _ _ Ha' Hfirst) in E; congruence).
      now destruct (firstAddress_occurs _ _ Hfirst).
    + apply isMulticall_true in Emulti as (m & -> & Hm & Em). simpl.
      split; [now apply UndeployedMulticall with a|].
      intros r' Hr'.
      inversion Hr' as [a' Ha' E|a' m' Ha' E Hm' Hne' E'|a' Ha' E Hall|Hno].
      * rewrite (firstAddress_unique _ _ _ Ha' Hfirst) in E. congruence.
      * injection Hm' as <-. reflexivity.
      * rewrite (firstAddress_unique _ _ _ Ha' Hfirst) in Hall.
        specialize (Hall m eq_refl Hm). congruence.
      * now destruct (firstAddress_occurs _ _ Hfirst).
    + assert (forall m, multicallAddress = Some m -> m <> "" ->
                        isEqualAddress a m = false) as Hall.
      { intros m Hsome Hm. destruct (isEqualAddress a m) eqn:Em; [|reflexivity].
        assert (isMulticall isEqualAddress a multicallAddress = true) as H
            by (apply isMulticall_true; eauto).
        congruence. }
      split; [now apply UndeployedOther|].
      intros r' Hr'.
      inversion Hr' as [a' Ha' E|a' m' Ha' E Hm' Hne' E'|a' Ha' E Hall'|Hno].
      * rewrite (firstAddress_unique _ _ _ Ha' Hfirst) in E. congruence.
      * rewrite (firstAddress_unique _ _ _ Ha' Hfirst) in E'.
        specialize (Hall m' Hm' Hne'). congruence.
      * now rewrite (firstAddress_unique _ _ _ Ha' Hfirst).
      * now destruct (firstAddress_occurs _ _ Hfirst).
  - split; [now apply UndeployedUnknown|].
    intros r' Hr'. inversion Hr' as [a' Ha' E|a' m' Ha' E|a' Ha' E|Hno];
      try reflexivity; now destruct (firstAddress_occurs _ _ Ha').
Qed.

Lemma errorToMessage_undeployed_contract_witness :
  let error :=
    undeployedError
      "Requested contract address 0x049d36570d4e46f48e99674bd3fcc84644ddd6b9 is not deployed" in
  Lodash.get error "errorCode" = VStr UNINITIALIZED_CONTRACT /\
  exists r,
    errorToMessage isNumericSpec isEqualAddressSpec false error
      (BaseToken.address etherToken) None = ([], Normal r) /\
    Undeployed isEqualAddressSpec
      "Requested contract address 0x049d36570d4e46f48e99674bd3fcc84644ddd6b9 is not deployed"
      (BaseToken.address etherToken) None r /\
    forall r',
      Undeployed isEqualAddressSpec
        "Requested contract address 0x049d36570d4e46f48e99674bd3fcc84644ddd6b9 is not deployed"
        (BaseToken.address etherToken) None r' ->
      r' = r.
Proof.
  split; [reflexivity|].
  apply errorToMessage_undeployed_contract; reflexivity.
Defined.

(** The label of every result, branch by branch, and what the console got. *)
Lemma label_cases (isNumeric : value -> bool)
    (isEqualAddress : string -> string -> bool) (IS_DEV : bool)
    (error : value) (tokenAddress : string) (multicallAddress : option string) :
  let errorCode := Lodash.get error "errorCode" in
  let result :=
    errorToMessage isNumeric isEqualAddress IS_DEV error tokenAddress
      multicallAddress in
  (errorCode = VStr UNINITIALIZED_CONTRACT /\ fst result = [] /\
   (label result = None \/ label result = Some "Token not found" \/
    label result = Some "No Multicall" \/
    label result = Some "Missing contract"))
  \/
  (errorCode <> VStr UNINITIALIZED_CONTRACT /\ fst result = [] /\
   isNetworkError isNumeric errorCode = true /\
   label result = Some "Network error")
  \/
  (errorCode <> VStr UNINITIALIZED_CONTRACT /\
   fst result =
     (if IS_DEV then [{| warnErrorCode := errorCode; warnError := error |}]
      else []) /\
   isNetworkError isNumeric errorCode = false /\
   label result = Some "Error").
Proof.
  intros errorCode result. subst result.
  destruct (UNINITIALIZED_CONTRACT_dec errorCode) as [Hcode|Hcode].
  - left. split; [exact Hcode|].
    destruct (value_string_dec (Lodash.get error "message")) as [[text Ht]|Ht].
    + rewrite (classify_undeployed _ _ _ _ _ _ _ Hcode Ht).
      split; [reflexivity|]. unfold label. simpl.
      destruct (firstOf _) as [a|]; [|auto].
      destruct (isEqualAddress a tokenAddress); [auto|].
      destruct (isMulticall _ _ _); auto.
    + rewrite (classify_undeployed_throws _ _ _ _ _ _ Hcode Ht). auto.
  - right. rewrite (classify_other _ _ _ _ _ _ Hcode). fold errorCode.
    destruct (isNetworkError isNumeric errorCode); [left | right]; auto.
Qed.








(** C7.  [errorToMessage] is not total: on an error that has the code of an
    undeployed contract and no message, and on one whose message is a
    number, the call [message.match] throws a [TypeError]. *)
Theorem errorToMessage_throws :
  forall (isNumeric : value -> bool) (isEqualAddress : string -> string -> bool)
         (IS_DEV : bool) (tokenAddress : string)
         (multicallAddress : option string),
    errorToMessage isNumeric isEqualAddress IS_DEV bareUndeployedError
      tokenAddress multicallAddress = ([], Throw TypeError) /\
    errorToMessage isNumeric isEqualAddress IS_DEV numberedUndeployedError
      tokenAddress multicallAddress = ([], Throw TypeError).
Proof. intros. split; reflexivity. Qed.

(** [errorToMessage] returns unless it is in its first branch with a message
    that is not a string. *)
Lemma errorToMessage_returns_iff (isNumeric : value -> bool)
    (isEqualAddress : string -> string -> bool) (IS_DEV : bool)
    (error : value) (tokenAddress : string) (multicallAddress : option string) :
  (exists r,
      snd (errorToMessage isNumeric isEqualAddress IS_DEV error tokenAddress
             multicallAddress) = Normal r) <->
  ~ (Lodash.get error "errorCode" = VStr UNINITIALIZED_CONTRACT /\
     forall text, Lodash.get error "message" <> VStr text).
Proof.
  destruct (UNINITIALIZED_CONTRACT_dec (Lodash.get error "errorCode"))
    as [Hcode|Hcode].
  - destruct (value_string_dec (Lodash.get error "message")) as [[text Ht]|Ht].
    + rewrite (classify_undeployed _ _ _ _ _ _ _ Hcode Ht). simpl. split.
      * intros _ [_ H]. exact (H text Ht).
      * intros _. eauto.
    + rewrite (classify_undeployed_throws _ _ _ _ _ _ Hcode Ht). simpl. split.
      * intros [r H]. discriminate.
      * intros H. destruct H. auto.
  - rewrite (classify_other _ _ _ _ _ _ Hcode). split.
    + intros _ [H _]. contradiction.
    + intros _. destruct (isNetworkError _ _); simpl; eauto.
Qed.

Lemma label_in_LABELS (isNumeric : value -> bool)
    (isEqualAddress : string -> string -> bool) (IS_DEV : bool)
    (error : value) (tokenAddress : string) (multicallAddress : option string)
    (l : string) :
  label (errorToMessage isNumeric isEqualAddress IS_DEV error tokenAddress
           multicallAddress) = Some l ->
  In l LABELS.
Proof.
  pose proof (label_cases isNumeric isEqualAddress IS_DEV error tokenAddress
                multicallAddress) as Hcases.
  cbv zeta in Hcases. unfold LABELS.
  destruct Hcases as [(_ & _ & [H|[H|[H|H]]])|[(_ & _ & _ & H)|(_ & _ & _ & H)]];
    rewrite H; intros [= <-]; simpl; tauto.
Qed.

Lemma console_in_development (isNumeric : value -> bool)
    (isEqualAddress : string -> string -> bool) (IS_DEV : bool)
    (error : value) (tokenAddress : string) (multicallAddress : option string) :
  let result :=
    errorToMessage isNumeric isEqualAddress IS_DEV error tokenAddress
      multicallAddress in
  fst result <> [] <-> IS_DEV = true /\ label result = Some "Error".
Proof.
  intros result.
  pose proof (label_cases isNumeric isEqualAddress IS_DEV error tokenAddress
                multicallAddress) as Hcases.
  cbv zeta in Hcases. fold result in Hcases.
  destruct Hcases as [(_ & Hout & [H|[H|[H|H]]])|[(_ & Hout & _ & H)
                     |(_ & Hout & _ & H)]]; rewrite H, Hout.
  1-5: split; [congruence | intros [_ [=]]].
  destruct IS_DEV; split.
  - auto.
  - discriminate.
  - congruence.
  - intros [[=] _].
Qed.

(** C10.  The label of a message that [errorToMessage] returns is one of the
    five; a message is returned whenever the call is not the one of an
    undeployed contract on a message that is no string; the console is
    written to only in a development build, and then only along with the
    generic error, whose label is ["Error"]; and each of the five labels is
    the label of some result. *)
Theorem errorToMessage_labels :
  (forall (isNumeric : value -> bool)
          (isEqualAddress : string -> string -> bool) (IS_DEV : bool)
          (error : value) (tokenAddress : string)
          (multicallAddress : option string),
      let result :=
        errorToMessage isNumeric isEqualAddress IS_DEV error tokenAddress
          multicallAddress in
      (forall l, label result = Some l -> In l LABELS) /\
      (~ (Lodash.get error "errorCode" = VStr UNINITIALIZED_CONTRACT /\
          forall text, Lodash.get error "message" <> VStr text) ->
       exists l, label result = Some l /\ In l LABELS) /\
      (fst result <> [] <-> IS_DEV = true /\ label result = Some "Error")) /\
  (forall l,
      In l LABELS ->
      exists isNumeric isEqualAddress IS_DEV error tokenAddress multicallAddress,
        label (errorToMessage isNumeric isEqualAddress IS_DEV error
                 tokenAddress multicallAddress) = Some l).
Proof.
  split.
  - intros isNumeric isEqualAddress IS_DEV error tokenAddress multicallAddress
      result.
    split; [|split].
    + intros l. apply label_in_LABELS.
    + intros H.
      apply (errorToMessage_returns_iff isNumeric isEqualAddress IS_DEV error
               tokenAddress multicallAddress) in H as [r Hr].
      assert (label result = Some (message r)) as Hl
          by (unfold label; subst result; now rewrite Hr).
      exists (message r). split; [exact Hl|].
      now apply label_in_LABELS in Hl.
    + apply console_in_development.
  - intros l Hin. exists isNumericSpec, isEqualAddressSpec, false.
    simpl in Hin. destruct Hin as [<-|[<-|[<-|[<-|[<-|[]]]]]].
    + exists (undeployedError "0xabc not deployed"), "0xABC", None.
      reflexivity.
    + exists (undeployedError "0xabc not deployed"), "0x1", (Some "0xABC").
      reflexivity.
    + exists (undeployedError "not deployed"), "0x1", None. reflexivity.
    + exists (codedError (VStr "429") "Too Many Requests"), "0x1", None.
      reflexivity.
    + exists (codedError VUndefined "boom"), "0x1", None. reflexivity.
Qed.

Lemma errorToMessage_labels_witness :
  let result :=
    errorToMessage isNumericSpec isEqualAddressSpec true
      (codedError (VStr "500") "Internal Server Error")
      (BaseToken.address etherToken) None in
  In "Error" LABELS /\ fst result <> [].
Proof.
  pose proof (proj1 errorToMessage_labels isNumericSpec isEqualAddressSpec true
                (codedError (VStr "500") "Internal Server Error")
                (BaseToken.address etherToken) None) as [Hin [_ Hdev]].
  split.
  - apply Hin. reflexivity.
  - apply Hdev. split; reflexivity.
Defined.

(** ** The fetcher *)

Section Fetcher.

Variable isNumeric : value -> bool.
Variable isEqualAddress : string -> string -> bool.
Variable IS_DEV : bool.
Variable BaseWalletAccount : Type.
Variable toBaseWalletAccount : Account.t -> BaseWalletAccount.
Variable getTokenBalanceForWalletAccount :
  string -> BaseWalletAccount -> settled string value.

Local Abbreviation fetch :=
  (fetcher isNumeric isEqualAddress IS_DEV BaseWalletAccount
     toBaseWalletAccount getTokenBalanceForWalletAccount).

Local Abbreviation query token account :=
  (getTokenBalanceForWalletAccount (BaseToken.address token)
     (toBaseWalletAccount account)).

(** Without [shouldReturnError] the rejection of the query is passed on. *)
Lemma fetcher_rethrows (token : BaseToken.t) (account : Account.t)
    (error : value) :
  query token account = Rejected error ->
  fetch token account false = ([], Rejected (Raised error)).
Proof. intros H. unfold fetcher. now rewrite H. Qed.

(** With [shouldReturnError] the fetcher settles as [errorToMessage]
    completes. *)
Lemma fetcher_classifies (token : BaseToken.t) (account : Account.t)
    (error : value) :
  query token account = Rejected error ->
  fetch token account true =
  match errorToMessage isNumeric isEqualAddress IS_DEV error
          (BaseToken.address token)
          (Network.multicallAddress (Account.network account)) with
  | (out, Normal classified) => (out, Fulfilled (inr classified))
  | (out, Throw e) => (out, Rejected e)
  end.
Proof. intros H. unfold fetcher. now rewrite H. Qed.

(** C6.  When the balance query is fulfilled, the fetcher is fulfilled with
    the very string of the query, and nothing is written to the console. *)
Theorem fetcher_fulfilled :
  forall (token : BaseToken.t) (account : Account.t)
         (shouldReturnError : bool) (balance : string),
    query token account = Fulfilled balance ->
    fetch token account shouldReturnError = ([], Fulfilled (inl balance)).
Proof. intros token account shouldReturnError balance H. unfold fetcher. now rewrite H. Qed.

End Fetcher.

Lemma fetcher_fulfilled_witness :
  fetcher isNumericSpec isEqualAddressSpec false Account.t (fun a => a)
    (fun _ _ => Fulfilled "1000000000000000000") etherToken someAccount true
  = ([], Fulfilled (inl "1000000000000000000")).
Proof.
  apply (fetcher_fulfilled isNumericSpec isEqualAddressSpec false Account.t
           (fun a => a) (fun _ _ => Fulfilled "1000000000000000000")
           etherToken someAccount true "1000000000000000000").
  reflexivity.
Defined.

(** C4.  With [shouldReturnError] set, a query rejected with an error that
    has the code of an undeployed contract and no message leaves the
    fetcher rejected, with the [TypeError] of [errorToMessage]. *)
Theorem fetcher_rejects_with_shouldReturnError :
  forall (isNumeric : value -> bool) (isEqualAddress : string -> string -> bool)
         (IS_DEV : bool) (BaseWalletAccount : Type)
         (toBaseWalletAccount : Account.t -> BaseWalletAccount)
         (token : BaseToken.t) (account : Account.t),
    fetcher isNumeric isEqualAddress IS_DEV BaseWalletAccount
      toBaseWalletAccount (fun _ _ => Rejected bareUndeployedError)
      token account true
    = ([], Rejected TypeError).
Proof. reflexivity. Qed.

(** ** The effect on the pending transactions *)

Lemma render_first (length : nat) :
  render None length =
  ({| pendingTransactionsLengthRef := length; effectDeps := length |}, false).
Proof. unfold render, effect. now rewrite Nat.ltb_irrefl. Qed.

(** Between renders the ref and the dependency of the effect agree, and
    then a render calls [mutate] when the length went down. *)
Lemma render_next (previous length : nat) :
  render (Some {| pendingTransactionsLengthRef := previous;
                  effectDeps := previous |}) length =
  ({| pendingTransactionsLengthRef := length; effectDeps := length |},
   (length <? previous)%nat).
Proof.
  unfold render, effect. simpl.
  destruct (Nat.eqb_spec length previous) as [->|Hne]; [|reflexivity].
  now rewrite Nat.ltb_irrefl.
Qed.

Lemma renders_next (lengths : list nat) (previous : nat) :
  forall i,
    nth i (fst (renders (Some {| pendingTransactionsLengthRef := previous;
                                 effectDeps := previous |}) lengths)) false
    = true <->
    exists before after,
      nth_error (previous :: lengths) i = Some before /\
      nth_error lengths i = Some after /\
      (after < before)%nat.
Proof.
  revert previous. induction lengths as [|length rest IH]; intros previous i.
  - simpl. split.
    + destruct i; discriminate.
    + intros (b & n & _ & H & _). destruct i; discriminate.
  - cbn [renders]. rewrite render_next.
    destruct (renders _ rest) as [fs final] eqn:E. cbn [fst].
    destruct i as [|i].
    + cbn [nth nth_error]. rewrite Nat.ltb_lt. split.
      * intros H. now exists previous, length.
      * now intros (b & n & [= <-] & [= <-] & H).
    + cbn [nth nth_error]. specialize (IH length i). rewrite E in IH.
      exact IH.
Qed.

Lemma renders_state (lengths : list nat) (st : option HookState) (length : nat) :
  (forall s, st = Some s -> pendingTransactionsLengthRef s = effectDeps s) ->
  snd (renders st (lengths ++ [length])%list) =
  Some {| pendingTransactionsLengthRef := length; effectDeps := length |}.
Proof.
  revert st. induction lengths as [|l rest IH]; intros st Hst.
  - cbn [app renders]. destruct st as [[r d]|].
    + simpl in Hst. specialize (Hst _ eq_refl). simpl in Hst. subst d.
      now rewrite render_next.
    + now rewrite render_first.
  - cbn [app renders].
    assert (render st l = ({| pendingTransactionsLengthRef := l;
                              effectDeps := l |}, snd (render st l))) as ->.
    { destruct st as [[r d]|].
      - specialize (Hst _ eq_refl). simpl in Hst. subst d.
        now rewrite render_next.
      - now rewrite render_first. }
    specialize (IH (Some {| pendingTransactionsLengthRef := l;
                            effectDeps := l |})).
    destruct (renders _ (rest ++ [length])%list) as [fs final].
    simpl in *. apply IH. now intros s [= <-].
Qed.

(** C5.  Over the renders of a hook, with the successive lengths of the
    pending transactions, [mutate] is called at a render exactly when that
    render is not the first and its length is below the length of the
    render before; after every render the ref holds the length just seen;
    and on the lengths 3, 3, 5, 2, 2, 4 the one call is at the fourth
    render, from 5 to 2. *)
Theorem mutate_when_pending_decreases :
  (forall (lengths : list nat) (i : nat),
      nth i (fst (renders None lengths)) false = true <->
      exists j before after,
        i = S j /\
        nth_error lengths j = Some before /\
        nth_error lengths i = Some after /\
        (after < before)%nat) /\
  (forall (lengths : list nat) (length : nat),
      snd (renders None (lengths ++ [length])%list) =
      Some {| pendingTransactionsLengthRef := length; effectDeps := length |}) /\
  fst (renders None [3; 3; 5; 2; 2; 4]%nat) =
  [false; false; false; true; false; false].
Proof.
  split; [|split].
  - intros [|first rest] i.
    + simpl. split.
      * destruct i; discriminate.
      * intros (j & b & n & _ & H & _). destruct j; discriminate.
    + cbn [renders]. rewrite render_first.
      pose proof (renders_next rest first) as Hnext.
      destruct (renders _ rest) as [fs final]. cbn [fst] in *.
      destruct i as [|i]; cbn [nth].
      * split; [discriminate|]. intros (j & _ & _ & [=] & _).
      * rewrite Hnext. split.
        -- intros (b & n & Hb & Hn & Hlt). now exists i, b, n.
        -- intros (j & b & n & [= <-] & Hb & Hn & Hlt). now exists b, n.
  - intros lengths length. apply renders_state. discriminate.
  - reflexivity.
Qed.

Lemma mutate_when_pending_decreases_witness :
  nth 3 (fst (renders None [3; 3; 5; 2; 2; 4]%nat)) false = true.
Proof.
  apply (proj1 mutate_when_pending_decreases [3; 3; 5; 2; 2; 4]%nat 3%nat).
  exists 2%nat, 5%nat, 2%nat. repeat split. simpl. lia.
Defined.

(** ** The key *)

Lemma truthy_Some (s : string) : s <> "" -> truthy (Some s) = true.
Proof. intros H. now apply truthyString_true. Qed.

(** The key of components that are there. *)
Lemma key_components (tokenAddress networkId accountAddress : string)
    (multicallAddress : option string) :
  keyComponents tokenAddress networkId accountAddress multicallAddress ->
  key tokenAddress networkId accountAddress multicallAddress =
  "balanceOf-" ++ tokenAddress ++ "-" ++ networkId ++ "-" ++ accountAddress
    ++ multicallSuffix multicallAddress.
Proof.
  intros (Ht & Hn & Ha & Hm). unfold key. cbn [filterBoolean].
  rewrite (truthy_Some _ Ht), (truthy_Some _ Hn), (truthy_Some _ Ha).
  change (truthy (Some "balanceOf")) with true. cbv iota.
  destruct multicallAddress as [m|].
  - assert (m <> "") as Hm' by congruence.
    rewrite (truthy_Some _ Hm'). reflexivity.
  - cbn. now rewrite append_nil_r.
Qed.

Lemma separatorFree_append (s r : string) :
  separatorFree (s ++ String "-" r) = false.
Proof.
  induction s as [|c s IH]; simpl; [reflexivity|].
  rewrite IH. apply andb_false_r.
Qed.

(** A text splits in one way at its first separator. *)
Lemma split_at_separator (s s' r r' : string) :
  separatorFree s = true -> separatorFree s' = true ->
  s ++ String "-" r = s' ++ String "-" r' ->
  s = s' /\ r = r'.
Proof.
  revert s'. induction s as [|c s IH]; intros [|c' s'] Hs Hs' H; simpl in *.
  - injection H as ->. auto.
  - injection H as <- _. discriminate.
  - injection H as -> _. discriminate.
  - injection H as -> H.
    apply andb_prop in Hs as [_ Hs]. apply andb_prop in Hs' as [_ Hs'].
    destruct (IH s' Hs Hs' H) as [-> ->]. auto.
Qed.

Lemma multicallSuffix_injective (m m' : option string) :
  multicallSuffix m = multicallSuffix m' -> m = m'.
Proof.
  destruct m, m'; simpl; intros H; try discriminate; [|reflexivity].
  now injection H as ->.
Qed.

(** C2, as the code has it.  The key is a function of its components.  On
    components that are there (the first three not empty, the multicall
    address absent or not empty), two keys are equal only for equal
    components when no token address, network id or account address holds
    the separator, and also when the two tuples agree on three of their
    four components. *)
Theorem key_injective_without_separator :
  forall (tokenAddress networkId accountAddress : string)
         (multicallAddress : option string)
         (tokenAddress' networkId' accountAddress' : string)
         (multicallAddress' : option string),
    keyComponents tokenAddress networkId accountAddress multicallAddress ->
    keyComponents tokenAddress' networkId' accountAddress' multicallAddress' ->
    ((tokenAddress, networkId, accountAddress, multicallAddress) =
     (tokenAddress', networkId', accountAddress', multicallAddress') ->
     key tokenAddress networkId accountAddress multicallAddress =
     key tokenAddress' networkId' accountAddress' multicallAddress') /\
    (key tokenAddress networkId accountAddress multicallAddress =
     key tokenAddress' networkId' accountAddress' multicallAddress' ->
     (separatorFree tokenAddress = true /\ separatorFree networkId = true /\
      separatorFree accountAddress = true /\
      separatorFree tokenAddress' = true /\ separatorFree networkId' = true /\
      separatorFree accountAddress' = true)
     \/ agreeOnThree tokenAddress networkId accountAddress multicallAddress
          tokenAddress' networkId' accountAddress' multicallAddress' ->
     (tokenAddress, networkId, accountAddress, multicallAddress) =
     (tokenAddress', networkId', accountAddress', multicallAddress')).
Proof.
  intros t n a m t' n' a' m' Hc Hc'. split; [now intros [= -> -> -> ->]|].
  rewrite (key_components _ _ _ _ Hc), (key_components _ _ _ _ Hc').
  intros Hkey. apply append_cancel_l in Hkey.
  intros [(Ht & Hn & Ha & Ht' & Hn' & Ha')|Hagree].
  - apply (split_at_separator _ _ _ _ Ht Ht') in Hkey as [-> Hkey].
    apply (split_at_separator _ _ _ _ Hn Hn') in Hkey as [-> Hkey].
    destruct m as [m|], m' as [m'|]; simpl in Hkey.
    + apply (split_at_separator _ _ _ _ Ha Ha') in Hkey as [-> ->].
      reflexivity.
    + rewrite append_nil_r in Hkey. rewrite <- Hkey in Ha'.
      now rewrite separatorFree_append in Ha'.
    + rewrite append_nil_r in Hkey. rewrite Hkey in Ha.
      now rewrite separatorFree_append in Ha.
    + rewrite !append_nil_r in Hkey. now subst.
  - destruct Hagree as [(-> & -> & ->)|[(-> & -> & ->)|[(-> & -> & ->)
                       |(-> & -> & ->)]]].
    + apply append_cancel_r in Hkey. now subst.
    + apply append_cancel_l in Hkey.
      apply (append_cancel_l "-") in Hkey.
      apply append_cancel_r in Hkey. now subst.
    + do 2 (apply append_cancel_l in Hkey;
            apply (append_cancel_l "-") in Hkey).
      apply append_cancel_r in Hkey. now subst.
    + do 2 (apply append_cancel_l in Hkey;
            apply (append_cancel_l "-") in Hkey).
      apply append_cancel_l in Hkey.
      apply multicallSuffix_injective in Hkey. now subst.
Qed.

Lemma key_injective_without_separator_witness :
  keyComponents "0x1" "goerli-alpha" "0x2" (Some "0x3") /\
  ("0x1", "goerli-alpha", "0x2", Some "0x3") =
  ("0x1", "goerli-alpha", "0x2", Some "0x3").
Proof.
  assert (keyComponents "0x1" "goerli-alpha" "0x2" (Some "0x3")) as Hc
      by (repeat split; discriminate).
  split; [exact Hc|].
  apply (proj2 (key_injective_without_separator
                  "0x1" "goerli-alpha" "0x2" (Some "0x3")
                  "0x1" "goerli-alpha" "0x2" (Some "0x3") Hc Hc)).
  - reflexivity.
  - right. right. right. right. repeat split.
Defined.

(** The key is not injective.  A network id may hold the separator, as
    ["goerli-alpha"] does, and then two tuples of non-empty components that
    differ share a key; and a multicall address that is the empty string
    gives the key of the tuple without one. *)
Lemma key_collision :
  (keyComponents "0x1" "goerli" "alpha-0x2" None /\
   keyComponents "0x1" "goerli-alpha" "0x2" None /\
   ("0x1", "goerli", "alpha-0x2", @None string) <>
   ("0x1", "goerli-alpha", "0x2", @None string) /\
   key "0x1" "goerli" "alpha-0x2" None = key "0x1" "goerli-alpha" "0x2" None)
  /\
  (Some "" <> @None string /\
   key "0x1" "goerli-alpha" "0x2" (Some "") =
   key "0x1" "goerli-alpha" "0x2" None).
Proof.
  repeat split; discriminate.
Qed.

(** ** More on the regular expression *)

Section RegExpMore.
Import AddressRegExp.

Lemma matchHere_length (s m : string) :
  matchHere s = Some m ->
  (1 <= String.length m <= String.length s)%nat.
Proof.
  intros H. apply matchHere_sound in H as (post & -> & (x & d & -> & _) & _).
  rewrite length_append. simpl. lia.
Qed.

Lemma matchesFrom_shaped (s : string) :
  forall skip, Forall addressShaped (matchesFrom skip s).
Proof.
  induction s as [|c r IH]; intros skip; [constructor|].
  destruct skip as [|k]; [|apply IH].
  cbn [matchesFrom].
  destruct (matchHere (String c r)) as [m|] eqn:E; [|apply IH].
  constructor; [|apply IH].
  now apply matchHere_sound in E as (_ & _ & Hm & _).
Qed.

Lemma matchesFrom_occur (s : string) :
  forall skip m,
    In m (matchesFrom skip s) -> exists pre post, s = pre ++ m ++ post.
Proof.
  induction s as [|c r IH]; intros skip m Hin; [destruct Hin|].
  assert (forall k, In m (matchesFrom k r) ->
                    exists pre post, String c r = pre ++ m ++ post) as Hr.
  { intros k Hk. destruct (IH k m Hk) as (pre & post & ->).
    now exists (String c pre), post. }
  destruct skip as [|k]; [|now apply Hr with k].
  cbn [matchesFrom] in Hin.
  destruct (matchHere (String c r)) as [m0|] eqn:E; [|now apply Hr with 0%nat].
  destruct Hin as [<-|Hin]; [|now apply Hr with (String.length m0 - 1)%nat].
  apply matchHere_sound in E as (post & -> & _). now exists "", post.
Qed.

Lemma matchesFrom_lengths (s : string) :
  forall skip,
    (list_sum (map String.length (matchesFrom skip s))
     <= String.length s - skip)%nat.
Proof.
  induction s as [|c r IH]; intros skip; [simpl; lia|].
  destruct skip as [|k]; [|exact (IH k)].
  cbn [matchesFrom].
  destruct (matchHere (String c r)) as [m|] eqn:E.
  - apply matchHere_length in E. specialize (IH (String.length m - 1)%nat).
    cbn [map String.length] in *.
    change (list_sum (String.length m :: ?l)) with
      (String.length m + list_sum l)%nat.
    lia.
  - specialize (IH 0%nat). cbn [String.length]. lia.
Qed.

(** X1.  The array that [match] returns is not empty, each of its elements
    is shaped like an address and occurs in the text, and the elements do
    not overlap: their lengths add up to the length of the text at most. *)
Theorem matches_sound :
  forall (s : string) (ms : list string),
    matches s = Some ms ->
    ms <> [] /\
    Forall (fun m => addressShaped m /\ exists pre post, s = pre ++ m ++ post)
           ms /\
    (list_sum (map String.length ms) <= String.length s)%nat.
Proof.
  intros s ms. unfold matches.
  pose proof (matchesFrom_shaped s 0) as Hshape.
  pose proof (matchesFrom_occur s 0) as Hoccur.
  pose proof (matchesFrom_lengths s 0) as Hlen.
  destruct (matchesFrom 0 s) as [|m rest]; [discriminate|].
  intros [= <-]. split; [discriminate|]. split; [|lia].
  apply Forall_forall. intros x Hx. split.
  - now apply (proj1 (Forall_forall _ _) Hshape).
  - now apply Hoccur.
Qed.

Lemma matches_sound_witness :
  ["0x1f"; "0XAb"] <> [] /\
  Forall (fun m => addressShaped m /\
                   exists pre post, "see 0x1f, 0XAb" = pre ++ m ++ post)
         ["0x1f"; "0XAb"] /\
  (list_sum (map String.length ["0x1f"; "0XAb"])
   <= String.length "see 0x1f, 0XAb")%nat.
Proof.
  apply (matches_sound "see 0x1f, 0XAb" ["0x1f"; "0XAb"]). reflexivity.
Defined.

(** X2.  [match] returns [null] exactly on the texts that hold no string
    shaped like an address. *)
Theorem matches_null :
  forall s : string, matches s = None <-> noAddress s.
Proof.
  intros s. rewrite noAddress_iff. unfold matches, firstOf.
  destruct (matchesFrom 0 s); split; congruence.
Qed.

Lemma matches_null_witness : noAddress "0xg is no address".
Proof. apply (proj1 (matches_null "0xg is no address")). reflexivity. Defined.

Lemma isHexDigit_toLowerCase (c : ascii) :
  isHexDigit (toLowerCase c) = isHexDigit c.
Proof. destruct c as [[] [] [] [] [] [] [] []]; reflexivity. Qed.

Lemma zero_toLowerCase (c : ascii) :
  (toLowerCase c =? "0")%char = (c =? "0")%char.
Proof. destruct c as [[] [] [] [] [] [] [] []]; reflexivity. Qed.

Lemma x_toLowerCase (c : ascii) :
  ((toLowerCase c =? "x")%char || (toLowerCase c =? "X")%char) =
  ((c =? "x")%char || (c =? "X")%char).
Proof. destruct c as [[] [] [] [] [] [] [] []]; reflexivity. Qed.

Lemma length_lowerCase (s : string) :
  String.length (lowerCase s) = String.length s.
Proof. induction s as [|c s IH]; simpl; congruence. Qed.

Lemma hexRun_lowerCase (s : string) :
  hexRun (lowerCase s) = lowerCase (hexRun s).
Proof.
  induction s as [|c s IH]; simpl; [reflexivity|].
  rewrite isHexDigit_toLowerCase.
  destruct (isHexDigit c); simpl; congruence.
Qed.

Lemma matchHere_lowerCase (s : string) :
  matchHere (lowerCase s) = option_map lowerCase (matchHere s).
Proof.
  destruct s as [|z [|x [|h r]]]; try reflexivity.
  cbn [lowerCase matchHere].
  rewrite zero_toLowerCase, x_toLowerCase, isHexDigit_toLowerCase.
  destruct (_ && _ && _); [|reflexivity].
  cbn [option_map lowerCase]. now rewrite hexRun_lowerCase.
Qed.

Lemma matchesFrom_lowerCase (s : string) :
  forall skip,
    matchesFrom skip (lowerCase s) = map lowerCase (matchesFrom skip s).
Proof.
  induction s as [|c r IH]; intros skip; [reflexivity|].
  destruct skip as [|k]; [|exact (IH k)].
  change (lowerCase (String c r)) with (String (toLowerCase c) (lowerCase r)).
  cbn [matchesFrom].
  change (String (toLowerCase c) (lowerCase r)) with (lowerCase (String c r)).
  rewrite matchHere_lowerCase.
  destruct (matchHere (String c r)) as [m|]; cbn [option_map map].
  - now rewrite length_lowerCase, IH.
  - apply IH.
Qed.

(** X3.  The expression ignores case: on the text in lower case, [match]
    returns the matches of the text, in lower case. *)
Theorem matches_lowerCase :
  forall s : string,
    matches (lowerCase s) = option_map (map lowerCase) (matches s).
Proof.
  intros s. unfold matches. rewrite matchesFrom_lowerCase.
  now destruct (matchesFrom 0 s).
Qed.

End RegExpMore.

(** ** More on the classifier *)

(** X4.  Of the message of an undeployed contract, only the first address
    counts: two errors whose texts have the same first address get the same
    answer, whatever else the texts hold. *)
Theorem errorToMessage_first_address_only :
  forall (isNumeric : value -> bool) (isEqualAddress : string -> string -> bool)
         (IS_DEV : bool) (error error' : value) (text text' a : string)
         (tokenAddress : string) (multicallAddress : option string),
    Lodash.get error "errorCode" = VStr UNINITIALIZED_CONTRACT ->
    Lodash.get error' "errorCode" = VStr UNINITIALIZED_CONTRACT ->
    Lodash.get error "message" = VStr text ->
    Lodash.get error' "message" = VStr text' ->
    firstAddress text a ->
    firstAddress text' a ->
    errorToMessage isNumeric isEqualAddress IS_DEV error tokenAddress
      multicallAddress =
    errorToMessage isNumeric isEqualAddress IS_DEV error' tokenAddress
      multicallAddress.
Proof.
  intros isNumeric isEqualAddress IS_DEV error error' text text' a
    tokenAddress multicallAddress Hc Hc' Ht Ht' Ha Ha'.
  rewrite (classify_undeployed _ _ _ _ _ _ _ Hc Ht).
  rewrite (classify_undeployed _ _ _ _ _ _ _ Hc' Ht').
  apply firstAddress_iff in Ha, Ha'. now rewrite Ha, Ha'.
Qed.

Lemma errorToMessage_first_address_only_witness :
  errorToMessage isNumericSpec isEqualAddressSpec false
    (undeployedError "neither 0xabc nor 0xdef is deployed") "0xdef" None =
  errorToMessage isNumericSpec isEqualAddressSpec false
    (undeployedError "0xabc") "0xdef" None.
Proof.
  apply (errorToMessage_first_address_only isNumericSpec isEqualAddressSpec
           false (undeployedError "neither 0xabc nor 0xdef is deployed")
           (undeployedError "0xabc")
           "neither 0xabc nor 0xdef is deployed" "0xabc" "0xabc" "0xdef" None);
    try reflexivity; apply firstAddress_iff; reflexivity.
Defined.

(** X5.  Under any code but that of an undeployed contract, the
    description of the message returned is the message of the error as it
    is: an error without a message is answered with a description that is
    [undefined], though the interface has it a string.  And whenever the
    message of the error is a string, so is the description. *)
Theorem errorToMessage_description_string :
  forall (isNumeric : value -> bool) (isEqualAddress : string -> string -> bool)
         (IS_DEV : bool) (error : value) (tokenAddress : string)
         (multicallAddress : option string) (r : TokenBalanceErrorMessage),
    snd (errorToMessage isNumeric isEqualAddress IS_DEV error tokenAddress
           multicallAddress) = Normal r ->
    (Lodash.get error "errorCode" <> VStr UNINITIALIZED_CONTRACT ->
     description r = Lodash.get error "message") /\
    (isString (Lodash.get error "message") = true ->
     isString (description r) = true).
Proof.
  intros isNumeric isEqualAddress IS_DEV error tokenAddress multicallAddress r.
  destruct (UNINITIALIZED_CONTRACT_dec (Lodash.get error "errorCode"))
    as [Hcode|Hcode].
  - destruct (value_string_dec (Lodash.get error "message")) as [[text Ht]|Ht].
    + rewrite (classify_undeployed _ _ _ _ _ _ _ Hcode Ht), Ht. cbn [snd].
      intros [= <-]. split; [contradiction|]. intros _.
      destruct (firstOf _) as [a|]; [|reflexivity].
      destruct (isEqualAddress a tokenAddress); [reflexivity|].
      now destruct (isMulticall _ _ _).
    + rewrite (classify_undeployed_throws _ _ _ _ _ _ Hcode Ht). discriminate.
  - rewrite (classify_other _ _ _ _ _ _ Hcode).
    destruct (isNetworkError _ _); cbn [snd]; intros [= <-]; auto.
Qed.

Lemma errorToMessage_description_string_witness :
  description (genericError VUndefined) = VUndefined.
Proof.
  apply (proj1 (errorToMessage_description_string isNumericSpec
                  isEqualAddressSpec false
                  (VObj [("errorCode", VNum (Finite 500))]) "0x1" None
                  (genericError VUndefined) eq_refl)).
  discriminate.
Defined.

(** X6.  What the answer depends on.  Under any code but that of an
    undeployed contract, [errorToMessage] looks neither at the addresses it
    is given nor at [isEqualAddress]; under that code, it looks neither at
    [isNumeric] nor at [IS_DEV], and writes nothing to the console. *)
Theorem errorToMessage_frame :
  forall (isNumeric isNumeric' : value -> bool)
         (isEqualAddress isEqualAddress' : string -> string -> bool)
         (IS_DEV IS_DEV' : bool) (error : value)
         (tokenAddress tokenAddress' : string)
         (multicallAddress multicallAddress' : option string),
    (Lodash.get error "errorCode" <> VStr UNINITIALIZED_CONTRACT ->
     errorToMessage isNumeric isEqualAddress IS_DEV error tokenAddress
       multicallAddress =
     errorToMessage isNumeric isEqualAddress' IS_DEV error tokenAddress'
       multicallAddress') /\
    (Lodash.get error "errorCode" = VStr UNINITIALIZED_CONTRACT ->
     errorToMessage isNumeric isEqualAddress IS_DEV error tokenAddress
       multicallAddress =
     errorToMessage isNumeric' isEqualAddress IS_DEV' error tokenAddress
       multicallAddress /\
     fst (errorToMessage isNumeric isEqualAddress IS_DEV error tokenAddress
            multicallAddress) = []).
Proof.
  intros isNumeric isNumeric' isEqualAddress isEqualAddress' IS_DEV IS_DEV'
    error tokenAddress tokenAddress' multicallAddress multicallAddress'.
  split; intros Hcode.
  - now rewrite !(classify_other _ _ _ _ _ _ Hcode).
  - destruct (value_string_dec (Lodash.get error "message")) as [[text Ht]|Ht].
    + now rewrite !(classify_undeployed _ _ _ _ _ _ _ Hcode Ht).
    + now rewrite !(classify_undeployed_throws _ _ _ _ _ _ Hcode Ht).
Qed.

Lemma errorToMessage_frame_witness :
  errorToMessage isNumericSpec isEqualAddressSpec true
    (codedError (VStr "502") "Bad Gateway") "0x1" None =
  errorToMessage isNumericSpec (fun _ _ => true) true
    (codedError (VStr "502") "Bad Gateway") "0x2" (Some "0x3").
Proof.
  apply (proj1 (errorToMessage_frame isNumericSpec isNumericSpec
                  isEqualAddressSpec (fun _ _ => true) true true
                  (codedError (VStr "502") "Bad Gateway")
                  "0x1" "0x2" None (Some "0x3"))).
  discriminate.
Defined.

(** ** More on the fetcher *)

Section FetcherMore.

Variable isNumeric : value -> bool.
Variable isEqualAddress : string -> string -> bool.
Variable IS_DEV : bool.
Variable BaseWalletAccount : Type.
Variable toBaseWalletAccount : Account.t -> BaseWalletAccount.
Variable getTokenBalanceForWalletAccount :
  string -> BaseWalletAccount -> settled string value.

Local Abbreviation fetch :=
  (fetcher isNumeric isEqualAddress IS_DEV BaseWalletAccount
     toBaseWalletAccount getTokenBalanceForWalletAccount).

Local Abbreviation query token account :=
  (getTokenBalanceForWalletAccount (BaseToken.address token)
     (toBaseWalletAccount account)).

Local Abbreviation classified token account error :=
  (errorToMessage isNumeric isEqualAddress IS_DEV error
     (BaseToken.address token)
     (Network.multicallAddress (Account.network account))).

(** X8.  The fetcher is fulfilled with a balance exactly when the query is
    fulfilled with that balance: it passes balances on, and makes up none. *)
Theorem fetcher_balance :
  forall (token : BaseToken.t) (account : Account.t)
         (shouldReturnError : bool) (balance : string),
    snd (fetch token account shouldReturnError) = Fulfilled (inl balance) <->
    query token account = Fulfilled balance.
Proof.
  intros token account shouldReturnError balance. unfold fetcher.
  destruct (query token account) as [b|error].
  - cbn [snd]. split; congruence.
  - destruct shouldReturnError; [|cbn [snd]; split; discriminate].
    destruct (classified token account error) as [out [m|e]]; cbn [snd];
      split; discriminate.
Qed.

(** X9.  Without [shouldReturnError] the fetcher is rejected exactly with
    the errors the query is rejected with, is never fulfilled with a
    message, and writes nothing to the console. *)
Theorem fetcher_transparent :
  forall (token : BaseToken.t) (account : Account.t),
    (forall e,
        snd (fetch token account false) = Rejected e <->
        exists error, query token account = Rejected error /\ e = Raised error)
    /\
    (forall m, snd (fetch token account false) <> Fulfilled (inr m)) /\
    fst (fetch token account false) = [].
Proof.
  intros token account. unfold fetcher.
  destruct (query token account) as [b|error]; cbn [fst snd].
  - repeat split; try discriminate. now intros (error & [=] & _).
  - repeat split; try discriminate.
    + intros [= <-]. now exists error.
    + now intros (error' & [= <-] & ->).
Qed.

(** X10.  With [shouldReturnError] and a query rejected with [error]: when
    the error has another code than that of an undeployed contract, or a
    message that is a string, the fetcher is fulfilled with a message that
    bears one of the five labels; when it has that code and a message that
    is [undefined], [null], a number or a boolean, the fetcher is rejected,
    with a [TypeError] and not with the error of the query. *)
Theorem fetcher_returns_error :
  forall (token : BaseToken.t) (account : Account.t) (error : value),
    query token account = Rejected error ->
    let result := fetch token account true in
    (Lodash.get error "errorCode" <> VStr UNINITIALIZED_CONTRACT \/
     isString (Lodash.get error "message") = true ->
     exists m, snd result = Fulfilled (inr m) /\ In (message m) LABELS) /\
    (Lodash.get error "errorCode" = VStr UNINITIALIZED_CONTRACT ->
     (Lodash.get error "message" = VUndefined \/
      Lodash.get error "message" = VNull \/
      (exists n, Lodash.get error "message" = VNum n) \/
      (exists b, Lodash.get error "message" = VBool b)) ->
     snd result = Rejected TypeError).
Proof.
  intros token account error Hquery result. subst result.
  rewrite (fetcher_classifies _ _ _ _ _ _ _ _ _ Hquery).
  split.
  - intros Hok.
    pose proof (errorToMessage_returns_iff isNumeric isEqualAddress IS_DEV
                  error (BaseToken.address token)
                  (Network.multicallAddress (Account.network account)))
      as [_ Hreturns].
    pose proof (fun l => label_in_LABELS isNumeric isEqualAddress IS_DEV error
                  (BaseToken.address token)
                  (Network.multicallAddress (Account.network account)) l)
      as Hlabel.
    unfold label in Hlabel.
    destruct Hreturns as [r Hr].
    { intros [Hcode Ht]. destruct Hok as [Hok|Hok]; [contradiction|].
      destruct (Lodash.get error "message") as [| | | |text|];
        try discriminate. now destruct (Ht text). }
    destruct (classified token account error) as [out [m|e]];
      cbn [snd] in *; [|discriminate].
    exists m. split; [reflexivity|]. now apply Hlabel.
  - intros Hcode Hmessage.
    rewrite (classify_undeployed_throws isNumeric isEqualAddress IS_DEV error
               (BaseToken.address token)
               (Network.multicallAddress (Account.network account)) Hcode);
      [reflexivity|].
    intros text Ht. rewrite Ht in Hmessage.
    destruct Hmessage as [H|[H|[[n H]|[b H]]]]; discriminate.
Qed.

(** X11.  The fetcher writes to the console only in a development build,
    with [shouldReturnError], on a rejected query; it then writes once, the
    code and the error of the query, and is fulfilled with the generic
    error. *)
Theorem fetcher_console :
  forall (token : BaseToken.t) (account : Account.t)
         (shouldReturnError : bool),
    fst (fetch token account shouldReturnError) <> [] ->
    IS_DEV = true /\ shouldReturnError = true /\
    exists error,
      query token account = Rejected error /\
      fetch token account shouldReturnError =
      ([{| warnErrorCode := Lodash.get error "errorCode";
           warnError := error |}],
       Fulfilled (inr (genericError (Lodash.get error "message")))).
Proof.
  intros token account shouldReturnError. unfold fetcher.
  destruct (query token account) as [b|error]; [now intros []|].
  destruct shouldReturnError; [|now intros []].
  pose proof (label_cases isNumeric isEqualAddress IS_DEV error
                (BaseToken.address token)
                (Network.multicallAddress (Account.network account)))
    as Hcases.
  cbv zeta in Hcases.
  destruct (UNINITIALIZED_CONTRACT_dec (Lodash.get error "errorCode"))
    as [Hcode|Hcode].
  - destruct Hcases as [(_ & Hout & _)|[(H & _)|(H & _)]]; try contradiction.
    destruct (classified token account error) as [out [m|e]];
      cbn [fst] in *; subst out; now intros [].
  - rewrite (classify_other _ _ _ _ _ _ Hcode) in *.
    destruct (isNetworkError isNumeric (Lodash.get error "errorCode"));
      [now intros []|].
    destruct IS_DEV; [|now intros []].
    intros _. repeat split. now exists error.
Qed.

End FetcherMore.

Lemma fetcher_balance_witness :
  getTokenBalanceForWalletAccountExample "0x049D36570D4e46f48e99674bd3fcc84644DdD6b9" someAccount = Fulfilled "42".
Proof.
  apply (proj1 (fetcher_balance isNumericSpec isEqualAddressSpec false
                  Account.t (fun a => a)
                  getTokenBalanceForWalletAccountExample
                  etherToken someAccount true "42")).
  reflexivity.
Defined.

Lemma fetcher_transparent_witness :
  snd (fetcher isNumericSpec isEqualAddressSpec false Account.t (fun a => a)
         (fun _ _ => Rejected bareUndeployedError) etherToken someAccount false)
  = Rejected (Raised bareUndeployedError).
Proof.
  apply (proj1 (fetcher_transparent isNumericSpec isEqualAddressSpec false
                  Account.t (fun a => a)
                  (fun _ _ => Rejected bareUndeployedError)
                  etherToken someAccount)).
  now exists bareUndeployedError.
Defined.

Lemma fetcher_returns_error_witness :
  exists m,
    snd (fetcher isNumericSpec isEqualAddressSpec false Account.t (fun a => a)
           (fun _ _ => Rejected (codedError (VStr "502") "Bad Gateway"))
           etherToken someAccount true)
    = Fulfilled (inr m) /\
    In (message m) LABELS.
Proof.
  apply (proj1 (fetcher_returns_error isNumericSpec isEqualAddressSpec
                  false Account.t (fun a => a)
                  (fun _ _ =>
                     Rejected (codedError (VStr "502") "Bad Gateway"))
                  etherToken someAccount
                  (codedError (VStr "502") "Bad Gateway") eq_refl)).
  left. discriminate.
Defined.

Lemma fetcher_console_witness :
  true = true /\ true = true /\
  exists error,
    @Rejected string value
      (codedError (VStr "500") "Internal Server Error") =
    Rejected error /\
    fetcher isNumericSpec isEqualAddressSpec true Account.t (fun a => a)
      (fun _ _ => Rejected (codedError (VStr "500") "Internal Server Error"))
      etherToken someAccount true =
    ([{| warnErrorCode := Lodash.get error "errorCode"; warnError := error |}],
     Fulfilled (inr (genericError (Lodash.get error "message")))).
Proof.
  apply (fetcher_console isNumericSpec isEqualAddressSpec true Account.t
           (fun a => a)
           (fun _ _ =>
              Rejected (codedError (VStr "500") "Internal Server Error"))
           etherToken someAccount true).
  discriminate.
Defined.

(** ** More on the key *)

(** X12.  A component that is the empty string is left out of the key, with
    its separator: the key does not tell which of the components was empty,
    nor an empty multicall address from none. *)
Theorem key_drops_empty :
  forall (x y : string) (multicallAddress : option string),
    key "" x y multicallAddress = key x "" y multicallAddress /\
    key x "" y multicallAddress = key x y "" multicallAddress /\
    forall z, key x y z (Some "") = key x y z None.
Proof.
  intros x y multicallAddress. unfold key.
  destruct x as [|c x], y as [|d y], multicallAddress as [[|e m]|];
    cbn; repeat split; try reflexivity; intros [|f z]; reflexivity.
Qed.

(** X13.  Every key starts with the name [balanceOf], whatever the
    components are. *)
Theorem key_prefix :
  forall (tokenAddress networkId accountAddress : string)
         (multicallAddress : option string),
    String.prefix "balanceOf"
      (key tokenAddress networkId accountAddress multicallAddress) = true.
Proof.
  intros [|c t] [|d n] [|e a] [[|f m]|]; reflexivity.
Qed.

(** ** More on the effect *)

(** X15.  While the pending transactions only grow in number, [mutate] is
    never called. *)
Theorem no_mutate_while_pending_grows :
  forall lengths : list nat,
    (forall j before after,
        nth_error lengths j = Some before ->
        nth_error lengths (S j) = Some after ->
        (before <= after)%nat) ->
    forall i, nth i (fst (renders None lengths)) false = false.
Proof.
  intros [|first rest] Hgrow i.
  - now destruct i.
  - cbn [renders]. rewrite render_first.
    pose proof (renders_next rest first) as Hnext.
    destruct (renders _ rest) as [fs final]. cbn [fst] in *.
    destruct i as [|i]; [reflexivity|]. cbn [nth].
    destruct (nth i fs false) eqn:E; [|reflexivity].
    apply Hnext in E as (before & after & Hb & Ha & Hlt).
    specialize (Hgrow i before after Hb Ha). lia.
Qed.

Lemma no_mutate_while_pending_grows_witness :
  nth 2 (fst (renders None [0; 1; 1; 4]%nat)) false = false.
Proof.
  apply (no_mutate_while_pending_grows [0; 1; 1; 4]%nat).
  intros [|[|[|[|j]]]] before after; cbn; intros H1 H2;
    try discriminate; try (destruct j; discriminate);
    injection H1 as <-; injection H2 as <-; lia.
Defined.

(** X16.  A render with the length of the render before it calls no
    [mutate] and leaves the state as it is, from whatever state the render
    before started. *)
Theorem render_again :
  forall (st : option HookState) (length : nat),
    render (Some (fst (render st length))) length =
    (fst (render st length), false).
Proof.
  intros [[r d]|] length; unfold render, effect; cbn [effectDeps].
  - destruct (Nat.eqb_spec length d) as [->|Hne]; cbn [fst effectDeps].
    + now rewrite Nat.eqb_refl.
    + now rewrite Nat.eqb_refl.
  - cbn [fst effectDeps]. now rewrite Nat.eqb_refl.
Qed.

(** ** The panels of the ledger page *)

Section Ledger.
Import React.

(** What [toArray] returns holds neither an empty node nor an array: each
    element is the one-element array of itself. *)
Lemma toArray_leaves :
  forall children : node, Forall (fun x => toArray x = [x]) (toArray children).
Proof.
  fix IH 1. intros [|s|tag c|items].
  - constructor.
  - repeat constructor.
  - repeat constructor.
  - cbn [toArray]. induction items as [|x rest IHrest].
    + constructor.
    + cbn [flat_map]. apply Forall_app. split; [apply IH | exact IHrest].
Qed.

Lemma flat_map_leaves (l : list node) :
  Forall (fun x => toArray x = [x]) l -> flat_map toArray l = l.
Proof.
  induction 1 as [|x l Hx _ IH]; [reflexivity|].
  cbn [flat_map]. now rewrite Hx, IH.
Qed.

(** X17.  The page has two panels.  The second shows the first of the
    children that render, and nothing when there is none; the first shows
    the other children that render, in their order; so every such child is
    shown once. *)
Theorem LedgerPage_panels :
  forall children : node,
    exists first second,
      panelsOf (LedgerPage children) = Some (first, second) /\
      toArray first = tl (toArray children) /\
      toArray second = firstn 1 (toArray children) /\
      Permutation (toArray children) (toArray first ++ toArray second)%list.
Proof.
  intros children. unfold LedgerPage, splitChildren.
  pose proof (toArray_leaves children) as Hleaves.
  destruct (toArray children) as [|panel restChildren].
  - exists (Array []), Empty. repeat split. constructor.
  - exists (Array restChildren), panel.
    apply Forall_cons_iff in Hleaves as [Hpanel Hrest].
    cbn [panelsOf toArray tl firstn]. rewrite (flat_map_leaves _ Hrest), Hpanel.
    repeat split. apply Permutation_cons_append.
Qed.

(** X18.  Empty children and nesting do not count: a child that is [null],
    [undefined] or a boolean takes no place in the panels, and an array
    among the children stands for its items. *)
Theorem LedgerPage_flattens :
  forall (before items after : list node),
    LedgerPage (Array (before ++ Empty :: after)%list) =
    LedgerPage (Array (before ++ after)%list) /\
    LedgerPage (Array (before ++ Array items :: after)%list) =
    LedgerPage (Array (before ++ items ++ after)%list).
Proof.
  intros before items after.
  assert (toArray (Array (before ++ Empty :: after)%list) =
          toArray (Array (before ++ after)%list)) as Hempty.
  { cbn [toArray]. now rewrite !flat_map_app. }
  assert (toArray (Array (before ++ Array items :: after)%list) =
          toArray (Array (before ++ items ++ after)%list)) as Harray.
  { cbn [toArray]. rewrite !flat_map_app. reflexivity. }
  unfold LedgerPage, splitChildren. now rewrite Hempty, Harray.
Qed.

End Ledger.

(** ** The two modes of the fetcher *)

Lemma errorToMessage_throws_TypeError (isNumeric : value -> bool)
    (isEqualAddress : string -> string -> bool) (IS_DEV : bool)
    (error : value) (tokenAddress : string) (multicallAddress : option string)
    (e : exn) :
  snd (errorToMessage isNumeric isEqualAddress IS_DEV error tokenAddress
         multicallAddress) = Throw e ->
  e = TypeError.
Proof.
  destruct (UNINITIALIZED_CONTRACT_dec (Lodash.get error "errorCode"))
    as [Hcode|Hcode].
  - destruct (value_string_dec (Lodash.get error "message")) as [[text Ht]|Ht].
    + rewrite (classify_undeployed _ _ _ _ _ _ _ Hcode Ht). discriminate.
    + rewrite (classify_undeployed_throws _ _ _ _ _ _ Hcode Ht).
      now intros [= <-].
  - rewrite (classify_other _ _ _ _ _ _ Hcode).
    destruct (isNetworkError _ _); discriminate.
Qed.

(** X19.  The key of the hook leaves [shouldReturnError] out, yet the two
    modes of the fetcher settle alike exactly when the query is fulfilled:
    on a rejected query the one is fulfilled with a message or rejected
    with a [TypeError], the other rejected with the error of the query. *)
Theorem fetcher_modes :
  forall (isNumeric : value -> bool) (isEqualAddress : string -> string -> bool)
         (IS_DEV : bool) (BaseWalletAccount : Type)
         (toBaseWalletAccount : Account.t -> BaseWalletAccount)
         (getTokenBalanceForWalletAccount :
            string -> BaseWalletAccount -> settled string value)
         (token : BaseToken.t) (account : Account.t),
    snd (fetcher isNumeric isEqualAddress IS_DEV BaseWalletAccount
           toBaseWalletAccount getTokenBalanceForWalletAccount
           token account true) =
    snd (fetcher isNumeric isEqualAddress IS_DEV BaseWalletAccount
           toBaseWalletAccount getTokenBalanceForWalletAccount
           token account false) <->
    exists balance,
      getTokenBalanceForWalletAccount (BaseToken.address token)
        (toBaseWalletAccount account) = Fulfilled balance.
Proof.
  intros isNumeric isEqualAddress IS_DEV BaseWalletAccount toBaseWalletAccount
    getTokenBalanceForWalletAccount token account.
  destruct (getTokenBalanceForWalletAccount (BaseToken.address token)
              (toBaseWalletAccount account)) as [balance|error] eqn:Hquery.
  - unfold fetcher. rewrite Hquery. split; eauto.
  - unfold fetcher. rewrite Hquery.
    split; [|now intros [balance [=]]].
    pose proof (errorToMessage_throws_TypeError isNumeric isEqualAddress
                  IS_DEV error (BaseToken.address token)
                  (Network.multicallAddress (Account.network account)))
      as Htype.
    destruct (errorToMessage _ _ _ _ _ _) as [out [m|e]]; cbn [snd] in *;
      [discriminate|].
    intros [= ->]. specialize (Htype _ eq_refl). discriminate.
Qed.

Lemma fetcher_modes_witness :
  exists balance,
    getTokenBalanceForWalletAccountExample
      (BaseToken.address etherToken) someAccount = Fulfilled balance.
Proof.
  apply (proj1 (fetcher_modes isNumericSpec isEqualAddressSpec false Account.t
                  (fun a => a) getTokenBalanceForWalletAccountExample
                  etherToken someAccount)).
  reflexivity.
Defined.
